(** * A shallow embedding of the modal editing engine of VimNote
    ([src/editor/simple_editor.rs], [struct SimpleEditor]).

    A Rust [String] is a sequence of Unicode scalar values stored as UTF-8;
    every [str] operation the editor uses indexes it by BYTE offset and
    panics when an offset is out of range or not on a character boundary.
    We model a [String] as the list of its code points ([list N]); the byte
    offset of a code point is the sum of the UTF-8 lengths ([len_utf8]) of
    the code points before it.  A Rust panic is modelled by [None]. *)

From Stdlib Require Import List Arith Lia NArith Bool String Ascii.
Import ListNotations.
Open Scope nat_scope.

(** ** Option monad: [None] is a panic. *)
Definition obind {A B : Type} (m : option A) (f : A -> option B) : option B :=
  match m with Some a => f a | None => None end.

Notation "'let?' x ':=' m 'in' f" := (obind m (fun x => f))
  (at level 200, x name, m at level 100, f at level 200).

(** ** Characters and strings *)

(** A Rust [char], by its code point. *)
Abbreviation char := N (only parsing).

(** A Rust [String] (valid UTF-8 by construction). *)
Abbreviation text := (list N) (only parsing).

(** [char::len_utf8] *)
Definition len_utf8 (c : char) : nat :=
  if (c <? 128)%N then 1
  else if (c <? 2048)%N then 2
  else if (c <? 65536)%N then 3
  else 4.

(** [str::len]: length in bytes. *)
Fixpoint byte_len (t : text) : nat :=
  match t with
  | [] => 0
  | c :: r => len_utf8 c + byte_len r
  end.

(** The character index sitting at byte offset [i], when [i] is a
    character boundary of [t] (0, the length, or the first byte of a
    character); [None] otherwise. *)
Fixpoint char_index (t : text) (i : nat) : option nat :=
  match i with
  | 0 => Some 0
  | _ =>
      match t with
      | [] => None
      | c :: r =>
          if len_utf8 c <=? i
          then option_map S (char_index r (i - len_utf8 c))
          else None
      end
  end.

(** [str::is_char_boundary] *)
Definition is_char_boundary (t : text) (i : nat) : bool :=
  match char_index t i with Some _ => true | None => false end.

(** [&t[a..b]]: panics unless [a <= b] and both are boundaries. *)
Definition slice (t : text) (a b : nat) : option text :=
  if a <=? b then
    let? ka := char_index t a in
    let? kb := char_index t b in
    Some (firstn (kb - ka) (skipn ka t))
  else None.

(** [&t[..b]] and [&t[a..]] *)
Definition slice_to (t : text) (b : nat) : option text := slice t 0 b.
Definition slice_from (t : text) (a : nat) : option text := slice t a (byte_len t).

(** [str::find(c)] / [str::rfind(c)] for a character pattern: byte offset
    of the first / last occurrence. *)
Fixpoint find_char (c : char) (t : text) : option nat :=
  match t with
  | [] => None
  | x :: r =>
      if (x =? c)%N then Some 0
      else option_map (fun p => len_utf8 x + p) (find_char c r)
  end.

Fixpoint rfind_char (c : char) (t : text) : option nat :=
  match t with
  | [] => None
  | x :: r =>
      match rfind_char c r with
      | Some p => Some (len_utf8 x + p)
      | None => if (x =? c)%N then Some 0 else None
      end
  end.

(** [String::replace_range(a..b, s)]: asserts both ends are boundaries,
    then [Vec::splice], which panics when [a > b]. *)
Definition replace_range (t : text) (a b : nat) (s : text) : option text :=
  let? ka := char_index t a in
  let? kb := char_index t b in
  if a <=? b then Some (firstn ka t ++ s ++ skipn kb t) else None.

(** [String::insert_str(i, s)] and [String::insert(i, c)] *)
Definition insert_str (t : text) (i : nat) (s : text) : option text :=
  let? k := char_index t i in
  Some (firstn k t ++ s ++ skipn k t).

Definition insert (t : text) (i : nat) (c : char) : option text :=
  insert_str t i [c].

(** [String::remove(i)]: [self[i..].chars().next()], panics at the end. *)
Definition remove (t : text) (i : nat) : option text :=
  let? k := char_index t i in
  match skipn k t with
  | [] => None
  | _ :: rest => Some (firstn k t ++ rest)
  end.

(** [String::pop] *)
Definition pop (t : text) : text := removelast t.

(** [str::chars().next()] *)
Definition first_char (t : text) : option char :=
  match t with [] => None | c :: _ => Some c end.

Definition unwrap_or {A : Type} (o : option A) (d : A) : A :=
  match o with Some a => a | None => d end.

Definition contains (t : text) (c : char) : bool := existsb (N.eqb c) t.

(** String literals: an ASCII [string] as its code points. *)
Fixpoint str (s : string) : text :=
  match s with
  | EmptyString => []
  | String a r => N.of_nat (nat_of_ascii a) :: str r
  end.

Definition nl : char := 10%N.
Definition space : char := 32%N.

(** [char::is_whitespace]: the Unicode White_Space property. *)
Definition is_whitespace (c : char) : bool :=
  ((9 <=? c) && (c <=? 13))%N || (c =? 32)%N || (c =? 133)%N || (c =? 160)%N
  || (c =? 5760)%N || ((8192 <=? c) && (c <=? 8202))%N || (c =? 8232)%N
  || (c =? 8233)%N || (c =? 8239)%N || (c =? 8287)%N || (c =? 12288)%N.


Fixpoint text_eqb (a b : text) : bool :=
  match a, b with
  | [], [] => true
  | x :: a', y :: b' => (x =? y)%N && text_eqb a' b'
  | _, _ => false
  end.

Definition is_empty (t : text) : bool :=
  match t with [] => true | _ => false end.

(** ** Editor state ([modes.rs], [SimpleEditor]) *)

Module VimMode.
Inductive t := Normal | Insert | Command.
End VimMode.

Module VimOperation.
Inductive t := None | Delete | Yank | Change.
Definition eqb (a b : t) : bool :=
    match a, b with
    | None, None | Delete, Delete | Yank, Yank | Change, Change => true
    | _, _ => false
    end.
End VimOperation.

(** The [egui::Key]s the engine distinguishes; [Other] stands for every
    other key. *)
Module Key.
Inductive t :=
  | A | B | C | D | H | I | J | K | L | O | P | W | X | Y
  | Num0 | Num4 | Num9
  | ArrowLeft | ArrowRight | ArrowUp | ArrowDown
  | Escape | Enter | Backspace | Delete | Home | End_
  | Other.
End Key.

Record Modifiers := { shift : bool; ctrl : bool; alt : bool }.

Record SimpleEditor := mkEditor {
  cursor_position : nat;
  cursor_line : nat;
  cursor_column : nat;
  desired_column : nat;
  vim_mode : VimMode.t;
  command_buffer : text;
  current_operation : VimOperation.t;
  register_buffer : text
}.

(** [SimpleEditor::new] *)
Definition new : SimpleEditor :=
  mkEditor 0 0 0 0 VimMode.Normal [] VimOperation.None [].

(** Field assignments [self.f = v]. *)
Definition set_cursor_position (s : SimpleEditor) (v : nat) : SimpleEditor :=
  mkEditor v s.(cursor_line) s.(cursor_column) s.(desired_column) s.(vim_mode)
    s.(command_buffer) s.(current_operation) s.(register_buffer).
Definition set_line_column (s : SimpleEditor) (l c : nat) : SimpleEditor :=
  mkEditor s.(cursor_position) l c s.(desired_column) s.(vim_mode)
    s.(command_buffer) s.(current_operation) s.(register_buffer).
Definition set_desired_column (s : SimpleEditor) (v : nat) : SimpleEditor :=
  mkEditor s.(cursor_position) s.(cursor_line) s.(cursor_column) v s.(vim_mode)
    s.(command_buffer) s.(current_operation) s.(register_buffer).
Definition set_vim_mode (s : SimpleEditor) (v : VimMode.t) : SimpleEditor :=
  mkEditor s.(cursor_position) s.(cursor_line) s.(cursor_column) s.(desired_column) v
    s.(command_buffer) s.(current_operation) s.(register_buffer).
Definition set_command_buffer (s : SimpleEditor) (v : text) : SimpleEditor :=
  mkEditor s.(cursor_position) s.(cursor_line) s.(cursor_column) s.(desired_column)
    s.(vim_mode) v s.(current_operation) s.(register_buffer).
Definition set_current_operation (s : SimpleEditor) (v : VimOperation.t) : SimpleEditor :=
  mkEditor s.(cursor_position) s.(cursor_line) s.(cursor_column) s.(desired_column)
    s.(vim_mode) s.(command_buffer) v s.(register_buffer).
Definition set_register_buffer (s : SimpleEditor) (v : text) : SimpleEditor :=
  mkEditor s.(cursor_position) s.(cursor_line) s.(cursor_column) s.(desired_column)
    s.(vim_mode) s.(command_buffer) s.(current_operation) v.

(** ** Cursor and line arithmetic *)

(** [update_cursor_line_column] *)
Definition update_cursor_line_column (s : SimpleEditor) (t : text) : option SimpleEditor :=
  let? before :=
    if s.(cursor_position) <=? byte_len t then slice_to t s.(cursor_position) else Some t in
  let line := List.length (filter (N.eqb nl) before) in
  let col := s.(cursor_position)
             - match rfind_char nl before with Some p => p + 1 | None => 0 end in
  Some (set_line_column s line col).

(** [text[..cur].rfind('\n').map(|pos| pos + 1).unwrap_or(0)] *)
Definition line_start (t : text) (cur : nat) : option nat :=
  let? before := slice_to t cur in
  Some (match rfind_char nl before with Some p => p + 1 | None => 0 end).

(** [text[cur..].find('\n').map(|pos| cur + pos).unwrap_or(text.len())] *)
Definition line_end (t : text) (cur : nat) : option nat :=
  let? after := slice_from t cur in
  Some (match find_char nl after with Some p => cur + p | None => byte_len t end).

(** Same, past the terminator: [.map(|pos| cur + pos + 1)]. *)
Definition line_end_incl (t : text) (cur : nat) : option nat :=
  let? after := slice_from t cur in
  Some (match find_char nl after with Some p => cur + p + 1 | None => byte_len t end).

(** The column walk of [find_position_on_next_line] /
    [find_position_on_previous_line]:
    [while char_pos < lim && col_count < new_offset { .. }];
    [fuel] is [new_offset - col_count]. *)
Fixpoint walk_columns (t : text) (char_pos lim : nat) (fuel : nat) : option nat :=
  match fuel with
  | 0 => Some char_pos
  | S f =>
      if char_pos <? lim then
        let? rest := slice_from t char_pos in
        match first_char rest with
        | Some c => walk_columns t (char_pos + len_utf8 c) lim f
        | None => Some char_pos
        end
      else Some char_pos
  end.

(** [find_position_on_next_line] *)
Definition find_position_on_next_line (s : SimpleEditor) (t : text) : option (option nat) :=
  if is_empty t then Some None else
  let target_column := Nat.max s.(desired_column) s.(cursor_column) in
  let? after := slice_from t s.(cursor_position) in
  match find_char nl after with
  | Some off =>
      let next_line_start := s.(cursor_position) + off + 1 in
      if byte_len t <=? next_line_start then Some None else
      let? rest := slice_from t next_line_start in
      let next_line_end :=
        match find_char nl rest with
        | Some p => next_line_start + p
        | None => byte_len t
        end in
      if next_line_start =? next_line_end then Some (Some next_line_start) else
      let new_offset := Nat.min target_column (next_line_end - next_line_start) in
      let? pos := walk_columns t next_line_start next_line_end new_offset in
      Some (Some pos)
  | None => Some None
  end.

(** [find_position_on_previous_line] *)
Definition find_position_on_previous_line (s : SimpleEditor) (t : text) : option (option nat) :=
  if is_empty t then Some None else
  let? current_line_start := line_start t s.(cursor_position) in
  if current_line_start =? 0 then Some None else
  let target_column := Nat.max s.(desired_column) s.(cursor_column) in
  let? prev_line_start := line_start t (current_line_start - 1) in
  if prev_line_start =? current_line_start - 1 then Some (Some prev_line_start) else
  let new_offset := Nat.min target_column (current_line_start - 1 - prev_line_start) in
  let? pos := walk_columns t prev_line_start (current_line_start - 1) new_offset in
  Some (Some pos).

(** The byte-wise scans of [w], [dw], [yw], [cw]:
    [while pos < text.len() && text[pos..pos+1].chars().next().unwrap_or(' ')
       .is_whitespace() == ws { pos += 1 }]; [fuel] bounds the iterations. *)
Fixpoint skip_forward (t : text) (ws : bool) (pos : nat) (fuel : nat) : option nat :=
  match fuel with
  | 0 => Some pos
  | S f =>
      if pos <? byte_len t then
        let? one := slice t pos (pos + 1) in
        if Bool.eqb (is_whitespace (unwrap_or (first_char one) space)) ws
        then skip_forward t ws (pos + 1) f
        else Some pos
      else Some pos
  end.

(** Skip the run of non-whitespace, then the run of whitespace. *)
Definition word_forward_end (t : text) (start : nat) : option nat :=
  let? e1 := skip_forward t false start (byte_len t - start) in
  skip_forward t true e1 (byte_len t - e1).

(** The backward scan of [b]:
    [while pos > 0 && text[pos-1..pos]...is_whitespace() == ws { pos -= 1 }]. *)
Fixpoint skip_backward (t : text) (ws : bool) (pos : nat) : option nat :=
  match pos with
  | 0 => Some 0
  | S p =>
      let? one := slice t p (S p) in
      if Bool.eqb (is_whitespace (unwrap_or (first_char one) space)) ws
      then skip_backward t ws p
      else Some pos
  end.

(** ** The key handlers *)

Section Engine.

(** [char::is_alphanumeric] above U+007F is a lookup in Unicode's
    Alphabetic and Numeric tables, which the model does not spell out:
    every definition below is parametric in it. *)
Variable unicode_alphanumeric : char -> bool.

(** [char::is_alphanumeric]: exact on ASCII. *)
Definition is_alphanumeric (c : char) : bool :=
  if (c <? 128)%N
  then ((48 <=? c) && (c <=? 57))%N || ((65 <=? c) && (c <=? 90))%N
       || ((97 <=? c) && (c <=? 122))%N
  else unicode_alphanumeric c.

(** [is_word_char] *)
Definition is_word_char (c : char) : bool := is_alphanumeric c || (c =? 95)%N.

(** [char_at]: [None] at or past the end, else [text[pos..].chars().next()]. *)
Definition char_at (t : text) (pos : nat) : option (option char) :=
  if byte_len t <=? pos then Some None else
  let? rest := slice_from t pos in Some (first_char rest).

(** [s.char_indices().map(|(i, _)| i).rev().next().unwrap_or(0)]: byte
    index of the last character of [s]. *)
Definition last_char_index (s : text) : nat :=
  match s with [] => 0 | _ => byte_len (removelast s) end.

(** The backward loop of [find_word_boundaries]; [start] decreases at every
    iteration, so [fuel = start] suffices. *)
Fixpoint word_start (t : text) (start : nat) (fuel : nat) : option nat :=
  match fuel with
  | 0 => Some start
  | S f =>
      if 0 <? start then
        let prev_pos := start - 1 in
        let? before := slice_to t prev_pos in
        let prev_char_pos := last_char_index before in
        let? rest := slice_from t prev_char_pos in
        match first_char rest with
        | Some prev_char =>
            if negb (is_word_char prev_char) then Some start
            else word_start t prev_char_pos f
        | None => Some start
        end
      else Some start
  end.

(** The forward loop of [find_word_boundaries]. *)
Fixpoint word_end (t : text) (e : nat) (fuel : nat) : option nat :=
  match fuel with
  | 0 => Some e
  | S f =>
      if e <? byte_len t then
        let? rest := slice_from t e in
        match first_char rest with
        | Some c => if negb (is_word_char c) then Some e else word_end t (e + len_utf8 c) f
        | None => Some e
        end
      else Some e
  end.

(** [find_word_boundaries] *)
Definition find_word_boundaries (t : text) (pos : nat) : option (nat * nat) :=
  if is_empty t || (byte_len t <=? pos) then Some (0, 0) else
  let? oc := char_at t pos in
  let current_char := unwrap_or oc space in
  if negb (is_word_char current_char) then Some (pos, pos + len_utf8 current_char) else
  let? start := word_start t pos pos in
  let? e := word_end t pos (byte_len t - pos) in
  Some (start, e).

(** *** Operator branches of [handle_normal_mode_key] *)

(** [dw] / [cw] (also [yw] when [remove = false]): the word span from the
    cursor; nothing happens at the end of the text or on an empty span. *)
Definition word_operator (remove : bool) (s : SimpleEditor) (t : text)
  : option (SimpleEditor * text) :=
  if s.(cursor_position) <? byte_len t then
    let start_pos := s.(cursor_position) in
    let? end_pos := word_forward_end t start_pos in
    if start_pos <? end_pos then
      let? reg := slice t start_pos end_pos in
      if remove then
        let? t' := replace_range t start_pos end_pos [] in
        let? s' := update_cursor_line_column (set_register_buffer s reg) t' in
        Some (s', t')
      else Some (set_register_buffer s reg, t)
    else Some (s, t)
  else Some (s, t).

(** [dd] *)
Definition delete_line (s : SimpleEditor) (t : text) : option (SimpleEditor * text) :=
  let? ls := line_start t s.(cursor_position) in
  let? le := line_end_incl t s.(cursor_position) in
  let adjusted_line_end :=
    if (0 <? le) && (le <? byte_len t) then le
    else if 0 <? ls then ls - 1
    else le in
  let? reg := slice t ls le in
  let? t' := replace_range t ls adjusted_line_end [] in
  let cur := if byte_len t' <? ls then byte_len t' - 1 else ls in
  let? s' := update_cursor_line_column
               (set_cursor_position (set_register_buffer s reg) cur) t' in
  Some (s', t').

(** [yy] *)
Definition yank_line (s : SimpleEditor) (t : text) : option SimpleEditor :=
  let? ls := line_start t s.(cursor_position) in
  let? le := line_end_incl t s.(cursor_position) in
  let? reg := slice t ls le in
  Some (set_register_buffer s reg).

(** [diw] / [ciw] *)
Definition inner_word_operator (s : SimpleEditor) (t : text) : option (SimpleEditor * text) :=
  if negb (is_empty t) && (s.(cursor_position) <? byte_len t) then
    let? b := find_word_boundaries t s.(cursor_position) in
    let '(start_pos, end_pos) := b in
    if start_pos <? end_pos then
      let? content_to_save := slice t start_pos end_pos in
      let? t' := replace_range t start_pos end_pos [] in
      let s1 := set_cursor_position (set_register_buffer s content_to_save) start_pos in
      let? s2 := update_cursor_line_column s1 t' in
      Some (set_desired_column s2 s2.(cursor_column), t')
    else Some (s, t)
  else Some (s, t).

(** [cc] *)
Definition change_line (s : SimpleEditor) (t : text) : option (SimpleEditor * text) :=
  let? ls := line_start t s.(cursor_position) in
  let? le := line_end t s.(cursor_position) in
  let? reg := slice t ls le in
  let? t' := replace_range t ls le [] in
  let? s' := update_cursor_line_column
               (set_cursor_position (set_register_buffer s reg) ls) t' in
  Some (set_vim_mode s' VimMode.Insert, t').

(** Result of the pending-operator [match]: an arm that [return]s, or the
    fall-through after resetting the operation. *)
Inductive Pending :=
| Finished (s : SimpleEditor) (t : text)
| FallThrough (s : SimpleEditor).

Definition finish (r : option (SimpleEditor * text)) : option Pending :=
  let? p := r in
  let '(s', t') := p in
  Some (Finished (set_current_operation s' VimOperation.None) t').

(** The [match (self.current_operation, key)] of [handle_normal_mode_key]. *)
Definition handle_pending (s : SimpleEditor) (key : Key.t) (t : text) : option Pending :=
  let inner := text_eqb s.(register_buffer) (str "i") in
  match s.(current_operation), key with
  | VimOperation.Delete, Key.W =>
      if negb inner then finish (word_operator true s t)
      else finish (inner_word_operator s t)
  | VimOperation.Delete, Key.D => finish (delete_line s t)
  | VimOperation.Yank, Key.W => finish (word_operator false s t)
  | VimOperation.Yank, Key.Y => finish (option_map (fun s' => (s', t)) (yank_line s t))
  | VimOperation.Change, Key.W =>
      if negb inner
      then finish (option_map (fun '(s', t') => (set_vim_mode s' VimMode.Insert, t'))
                              (word_operator true s t))
      else finish (option_map (fun '(s', t') => (set_vim_mode s' VimMode.Insert, t'))
                              (inner_word_operator s t))
  | VimOperation.Delete, Key.I
  | VimOperation.Change, Key.I =>
      Some (Finished (set_register_buffer s (str "i")) t)
  | VimOperation.Change, Key.C => finish (change_line s t)
  | _, _ => Some (FallThrough (set_current_operation s VimOperation.None))
  end.

(** *** Plain Normal-mode keys *)

(** [p] / [P] *)
Definition paste (s : SimpleEditor) (t : text) (shifted : bool) : option (SimpleEditor * text) :=
  let reg := s.(register_buffer) in
  if negb (is_empty reg) then
    let? r :=
      if shifted then
        if contains reg nl then
          let? ls := line_start t s.(cursor_position) in
          let? t' := insert_str t ls reg in
          Some (t', ls + byte_len reg)
        else
          let? t' := insert_str t s.(cursor_position) reg in
          Some (t', s.(cursor_position) + byte_len reg)
      else
        if contains reg nl then
          let? le := line_end_incl t s.(cursor_position) in
          let? t' := insert_str t le reg in
          Some (t', le + byte_len reg)
        else
          let insert_pos :=
            if s.(cursor_position) <? byte_len t then s.(cursor_position) + 1
            else s.(cursor_position) in
          let? t' := insert_str t insert_pos reg in
          Some (t', insert_pos + byte_len reg) in
    let '(t', cur) := r in
    let? s' := update_cursor_line_column (set_cursor_position s cur) t' in
    Some (s', t')
  else Some (s, t).

(** Move to [pos], refresh line/column, and set [desired_column] to the
    new column. *)
Definition move_horizontal (s : SimpleEditor) (t : text) (pos : nat) : option SimpleEditor :=
  let? s' := update_cursor_line_column (set_cursor_position s pos) t in
  Some (set_desired_column s' s'.(cursor_column)).

(** [h] / [ArrowLeft] and [l] / [ArrowRight] *)
Definition move_left (s : SimpleEditor) (t : text) : option SimpleEditor :=
  if 0 <? s.(cursor_position) then move_horizontal s t (s.(cursor_position) - 1)
  else Some s.

Definition move_right (s : SimpleEditor) (t : text) : option SimpleEditor :=
  if s.(cursor_position) <? byte_len t then move_horizontal s t (s.(cursor_position) + 1)
  else Some s.

(** [k] / [ArrowUp] and [j] / [ArrowDown]: [desired_column] is saved and
    restored around the move. *)
Definition move_vertical (found : option (option nat)) (s : SimpleEditor) (t : text)
  : option SimpleEditor :=
  let current_desired := s.(desired_column) in
  let? r := found in
  match r with
  | Some pos =>
      let? s' := update_cursor_line_column (set_cursor_position s pos) t in
      Some (set_desired_column s' current_desired)
  | None => Some s
  end.

Definition move_up (s : SimpleEditor) (t : text) : option SimpleEditor :=
  move_vertical (find_position_on_previous_line s t) s t.

Definition move_down (s : SimpleEditor) (t : text) : option SimpleEditor :=
  move_vertical (find_position_on_next_line s t) s t.

(** [w] *)
Definition word_forward (s : SimpleEditor) (t : text) : option SimpleEditor :=
  if s.(cursor_position) <? byte_len t then
    let? pos := word_forward_end t s.(cursor_position) in
    if (s.(cursor_position) <? pos) && (pos <=? byte_len t)
    then move_horizontal s t pos else Some s
  else Some s.

(** [b] *)
Definition word_backward (s : SimpleEditor) (t : text) : option SimpleEditor :=
  if 0 <? s.(cursor_position) then
    let? p1 := skip_backward t true s.(cursor_position) in
    let? pos := skip_backward t false p1 in
    if pos <? s.(cursor_position) then move_horizontal s t pos else Some s
  else Some s.

(** [0] and the end-of-line key ([Num4], [$]) *)
Definition move_line_start (s : SimpleEditor) (t : text) : option SimpleEditor :=
  let? ls := line_start t s.(cursor_position) in move_horizontal s t ls.

Definition move_line_end (s : SimpleEditor) (t : text) : option SimpleEditor :=
  let? le := line_end t s.(cursor_position) in move_horizontal s t le.

(** Move to [pos] without touching [desired_column]. *)
Definition move_to (s : SimpleEditor) (t : text) (pos : nat) : option SimpleEditor :=
  update_cursor_line_column (set_cursor_position s pos) t.

(** [i] / [I] *)
Definition key_i (s : SimpleEditor) (t : text) (shifted : bool) : option SimpleEditor :=
  let? s' := if shifted then let? ls := line_start t s.(cursor_position) in move_to s t ls
             else Some s in
  Some (set_vim_mode s' VimMode.Insert).

(** [a] / [A] *)
Definition key_a (s : SimpleEditor) (t : text) (shifted : bool) : option SimpleEditor :=
  let? s' :=
    if shifted then let? le := line_end t s.(cursor_position) in move_to s t le
    else if s.(cursor_position) <? byte_len t then move_to s t (s.(cursor_position) + 1)
    else Some s in
  Some (set_vim_mode s' VimMode.Insert).

(** [x] *)
Definition key_x (s : SimpleEditor) (t : text) : option (SimpleEditor * text) :=
  if s.(cursor_position) <? byte_len t then
    let? t' := remove t s.(cursor_position) in
    let? s' := update_cursor_line_column s t' in
    Some (s', t')
  else Some (s, t).

(** [o] / [O] *)
Definition key_o (s : SimpleEditor) (t : text) (shifted : bool) : option (SimpleEditor * text) :=
  let? r :=
    if shifted then
      let? ls := line_start t s.(cursor_position) in
      let? t' := insert t ls nl in
      Some (t', ls)
    else
      let? le := line_end t s.(cursor_position) in
      let? t' := insert t le nl in
      Some (t', le + 1) in
  let '(t', cur) := r in
  let? s' := update_cursor_line_column (set_cursor_position s cur) t' in
  Some (set_vim_mode s' VimMode.Insert, t').

(** The output of a key handler: [(handled, command_action)]. *)
Definition Output : Type := SimpleEditor * text * (bool * option text).

Definition handled (r : option SimpleEditor) (t : text) : option Output :=
  let? s' := r in Some (s', t, (true, None)).

Definition handled_edit (r : option (SimpleEditor * text)) : option Output :=
  let? p := r in let '(s', t') := p in Some (s', t', (true, None)).

(** The [_] arm: [desired_column] is refreshed, the key is not consumed. *)
Definition unhandled (s : SimpleEditor) (t : text) : option Output :=
  Some (set_desired_column s s.(cursor_column), t, (false, None)).

(** The [match key] of [handle_normal_mode_key]. *)
Definition normal_key (s : SimpleEditor) (key : Key.t) (t : text) (m : Modifiers)
  : option Output :=
  match key with
  | Key.D => handled (Some (set_current_operation s VimOperation.Delete)) t
  | Key.Y => handled (Some (set_current_operation s VimOperation.Yank)) t
  | Key.C => handled (Some (set_current_operation s VimOperation.Change)) t
  | Key.P => handled_edit (paste s t m.(shift))
  | Key.H | Key.ArrowLeft => handled (move_left s t) t
  | Key.L | Key.ArrowRight => handled (move_right s t) t
  | Key.K | Key.ArrowUp => handled (move_up s t) t
  | Key.J | Key.ArrowDown => handled (move_down s t) t
  | Key.W => handled (word_forward s t) t
  | Key.B => handled (word_backward s t) t
  | Key.Num0 => handled (move_line_start s t) t
  | Key.Num4 => handled (move_line_end s t) t
  | Key.I => handled (key_i s t m.(shift)) t
  | Key.A => handled (key_a s t m.(shift)) t
  | Key.Num9 =>
      if m.(shift)
      then handled (Some (set_command_buffer (set_vim_mode s VimMode.Command) (str ":"))) t
      else unhandled s t
  | Key.X => handled_edit (key_x s t)
  | Key.O => handled_edit (key_o s t m.(shift))
  | _ => unhandled s t
  end.

(** [handle_normal_mode_key] *)
Definition handle_normal_mode_key (s : SimpleEditor) (key : Key.t) (t : text) (m : Modifiers)
  : option Output :=
  let? p :=
    if VimOperation.eqb s.(current_operation) VimOperation.None
    then Some (FallThrough s) else handle_pending s key t in
  match p with
  | Finished s' t' => Some (s', t', (true, None))
  | FallThrough s' => normal_key s' key t m
  end.

(** *** Insert mode *)

(** [Escape] in Insert mode *)
Definition insert_escape (s : SimpleEditor) (t : text) : option SimpleEditor :=
  let s1 := set_vim_mode s VimMode.Normal in
  if (0 <? s1.(cursor_position)) && negb (is_empty t)
  then move_to s1 t (s1.(cursor_position) - 1)
  else Some s1.

(** [Enter] in Insert mode *)
Definition insert_enter (s : SimpleEditor) (t : text) : option (SimpleEditor * text) :=
  if s.(cursor_position) <=? byte_len t then
    let? t' := insert t s.(cursor_position) nl in
    let? s' := move_to s t' (s.(cursor_position) + 1) in
    Some (s', t')
  else Some (s, t).

(** [Backspace] in Insert mode *)
Definition insert_backspace (s : SimpleEditor) (t : text) : option (SimpleEditor * text) :=
  if 0 <? s.(cursor_position) then
    let? t' := remove t (s.(cursor_position) - 1) in
    let? s' := move_to s t' (s.(cursor_position) - 1) in
    Some (s', t')
  else Some (s, t).

(** [handle_insert_mode_key] *)
Definition handle_insert_mode_key (s : SimpleEditor) (key : Key.t) (t : text) (m : Modifiers)
  : option Output :=
  match key with
  | Key.Escape => handled (insert_escape s t) t
  | Key.Enter => handled_edit (insert_enter s t)
  | Key.Backspace => handled_edit (insert_backspace s t)
  | Key.Delete => handled_edit (key_x s t)
  | Key.ArrowLeft => handled (move_left s t) t
  | Key.ArrowRight => handled (move_right s t) t
  | Key.ArrowUp => handled (move_up s t) t
  | Key.ArrowDown => handled (move_down s t) t
  | Key.Home => handled (let? ls := line_start t s.(cursor_position) in move_to s t ls) t
  | Key.End_ => handled (let? le := line_end t s.(cursor_position) in move_to s t le) t
  | _ => unhandled s t
  end.

(** *** Command mode *)

(** [execute_command] *)
Definition execute_command (s : SimpleEditor) : option text :=
  let cmd := s.(command_buffer) in
  if text_eqb cmd (str ":w") then Some (str "save")
  else if text_eqb cmd (str ":q") then Some (str "quit")
  else if text_eqb cmd (str ":wq") then Some (str "save_quit")
  else None.

(** [get_mode_display]: the mode indicator of the status line. *)
Definition get_mode_display (s : SimpleEditor) : text :=
  match s.(vim_mode) with
  | VimMode.Normal =>
      if VimOperation.eqb s.(current_operation) VimOperation.None then str "NORMAL"
      else match s.(current_operation) with
           | VimOperation.Delete => str "NORMAL (d)"
           | VimOperation.Yank => str "NORMAL (y)"
           | VimOperation.Change => str "NORMAL (c)"
           | _ => str "NORMAL"
           end
  | VimMode.Insert => str "INSERT"
  | VimMode.Command => s.(command_buffer)
  end.

(** [handle_command_mode_key] *)
Definition handle_command_mode_key (s : SimpleEditor) (key : Key.t) (t : text) (m : Modifiers)
  : option Output :=
  match key with
  | Key.Escape =>
      Some (set_command_buffer (set_vim_mode s VimMode.Normal) [], t, (true, None))
  | Key.Enter =>
      let command_action := execute_command s in
      Some (set_command_buffer (set_vim_mode s VimMode.Normal) [], t, (true, command_action))
  | Key.Backspace =>
      if 1 <? byte_len s.(command_buffer)
      then Some (set_command_buffer s (pop s.(command_buffer)), t, (true, None))
      else Some (s, t, (true, None))
  | _ => Some (s, t, (false, None))
  end.

(** [handle_key_press] *)
Definition handle_key_press (s : SimpleEditor) (key : Key.t) (t : text) (m : Modifiers)
  : option Output :=
  match s.(vim_mode) with
  | VimMode.Normal => handle_normal_mode_key s key t m
  | VimMode.Insert => handle_insert_mode_key s key t m
  | VimMode.Command => handle_command_mode_key s key t m
  end.

(** [handle_text_input] *)
Definition handle_text_input (s : SimpleEditor) (c : char) (t : text)
  : option (SimpleEditor * text) :=
  match s.(vim_mode) with
  | VimMode.Insert =>
      if (32 <=? c)%N || (c =? 10)%N || (c =? 9)%N then
        if s.(cursor_position) <=? byte_len t then
          let? t' := insert t s.(cursor_position) c in
          let? s' := move_to s t' (s.(cursor_position) + 1) in
          Some (s', t')
        else Some (s, t)
      else Some (s, t)
  | VimMode.Command =>
      if (32 <=? c)%N
      then Some (set_command_buffer s (s.(command_buffer) ++ [c]), t)
      else Some (s, t)
  | VimMode.Normal => Some (s, t)
  end.

(** ** Input events *)

Inductive Event :=
| KeyPress (key : Key.t) (m : Modifiers)
| TextInput (c : char).

(** One dispatch call: the new state and text ([None]: the call panics). *)
Definition step (s : SimpleEditor) (t : text) (ev : Event) : option (SimpleEditor * text) :=
  match ev with
  | KeyPress key m =>
      let? o := handle_key_press s key t m in
      let '(s', t', _) := o in Some (s', t')
  | TextInput c => handle_text_input s c t
  end.

Fixpoint run (s : SimpleEditor) (t : text) (evs : list Event) : option (SimpleEditor * text) :=
  match evs with
  | [] => Some (s, t)
  | ev :: rest =>
      let? st := step s t ev in
      let '(s', t') := st in run s' t' rest
  end.

End Engine.

Definition no_mods : Modifiers := {| shift := false; ctrl := false; alt := false |}.
Definition shift_mods : Modifiers := {| shift := true; ctrl := false; alt := false |}.
Definition press (k : Key.t) : Event := KeyPress k no_mods.

(** A state with the cursor at [cur] and derived line/column [line]/[col]
    (all other fields as after [SimpleEditor::new]). *)
Definition editor_at (mode : VimMode.t) (cur line col : nat) (reg : text) : SimpleEditor :=
  mkEditor cur line col col mode [] VimOperation.None reg.

(** The operator/key pairs whose arm consumes a span into the register. *)
Definition consumes_span (op : VimOperation.t) (key : Key.t) : bool :=
  match op, key with
  | VimOperation.Delete, (Key.W | Key.D)
  | VimOperation.Yank, (Key.W | Key.Y)
  | VimOperation.Change, (Key.W | Key.C) => true
  | _, _ => false
  end.

(** A table with no alphanumeric code point above U+007F, used to close
    the concrete counterexamples below (none of them consults it). *)
Definition no_unicode_alphanumeric : char -> bool := fun _ => false.

(** "é", U+00E9, two bytes in UTF-8. *)
Definition e_acute : char := 233%N.

(** In Command mode the command buffer is ":" followed by what was typed. *)
Definition cmd_ok (s : SimpleEditor) : Prop :=
  s.(vim_mode) = VimMode.Command -> exists r, s.(command_buffer) = str ":" ++ r.

(** The line around the cursor: [pre] is empty or ends with a terminator,
    the line is [l1 ++ l2] with the cursor between them, and [rest] is
    empty or starts with the terminator. *)
Definition line_prefix (pre : text) : Prop := pre = [] \/ exists pre', pre = pre' ++ [nl].
Definition line_suffix (rest : text) : Prop := rest = [] \/ exists post, rest = nl :: post.

(** A text of code points below U+0080, one byte each. *)
Definition ascii_text (l : text) : Prop := Forall (fun c => (c < 128)%N) l.

(** ** Proofs *)

Lemma text_eqb_eq : forall a b, text_eqb a b = true -> a = b.
Proof.
  induction a as [|x a IH]; intros [|y b]; simpl; try discriminate; auto.
  intros H; apply andb_prop in H as [H1 H2].
  apply N.eqb_eq in H1; subst; f_equal; auto.
Qed.

Lemma len_utf8_pos : forall c, 1 <= len_utf8 c.
Proof.
  intros c; unfold len_utf8.
  destruct (c <? 128)%N, (c <? 2048)%N, (c <? 65536)%N; lia.
Qed.

Lemma byte_len_app : forall p q, byte_len (p ++ q) = byte_len p + byte_len q.
Proof. induction p as [|c p IH]; intros q; simpl; [reflexivity | rewrite IH; lia]. Qed.

Lemma char_index_cons : forall c r i, 0 < i ->
  char_index (c :: r) i =
  if len_utf8 c <=? i then option_map S (char_index r (i - len_utf8 c)) else None.
Proof. intros c r [|i] H; [lia | reflexivity]. Qed.

(** The byte offset of a prefix is a boundary, at the prefix's length. *)
Lemma char_index_app : forall p r, char_index (p ++ r) (byte_len p) = Some (List.length p).
Proof.
  induction p as [|c p IH]; intros r; [destruct r; reflexivity|].
  pose proof (len_utf8_pos c). simpl (byte_len (c :: p)).
  rewrite <- app_comm_cons, char_index_cons by lia.
  rewrite (proj2 (Nat.leb_le _ _)) by lia.
  replace (len_utf8 c + byte_len p - len_utf8 c) with (byte_len p) by lia.
  rewrite IH; reflexivity.
Qed.

Lemma char_index_sound : forall t i k,
  char_index t i = Some k -> i = byte_len (firstn k t) /\ k <= List.length t.
Proof.
  induction t as [|c r IH]; intros [|i] k H.
  - injection H as <-; simpl; lia.
  - discriminate.
  - injection H as <-; simpl; lia.
  - rewrite char_index_cons in H by lia.
    destruct (len_utf8 c <=? S i) eqn:E; [|discriminate].
    apply Nat.leb_le in E.
    destruct (char_index r (S i - len_utf8 c)) as [k'|] eqn:E'; simpl in H; [|discriminate].
    injection H as <-. apply IH in E' as [E1 E2]. simpl. split; lia.
Qed.

Lemma slice_to_boundary : forall t i k,
  char_index t i = Some k -> slice_to t i = Some (firstn k t).
Proof.
  intros t i k H. unfold slice_to, slice. simpl.
  replace (char_index t 0) with (Some 0) by (destruct t; reflexivity).
  simpl. rewrite H. simpl. rewrite Nat.sub_0_r. reflexivity.
Qed.

(** [update_cursor_line_column] only writes [cursor_line]/[cursor_column]. *)
Lemma update_frame : forall s t s',
  update_cursor_line_column s t = Some s' -> exists l c, s' = set_line_column s l c.
Proof.
  intros s t s' H. unfold update_cursor_line_column in H.
  destruct (if cursor_position s <=? byte_len t then slice_to t (cursor_position s) else Some t);
    simpl in H; [|discriminate].
  injection H as <-. eauto.
Qed.

(** It does not panic on a boundary, nor past the end. *)
Lemma update_total : forall s t,
  is_char_boundary t (cursor_position s) = true \/ byte_len t < cursor_position s ->
  exists s', update_cursor_line_column s t = Some s'.
Proof.
  intros s t H. unfold update_cursor_line_column.
  destruct (cursor_position s <=? byte_len t) eqn:E.
  - destruct H as [H|H]; [|apply Nat.leb_le in E; lia].
    unfold is_char_boundary in H.
    destruct (char_index t (cursor_position s)) as [k|] eqn:Ek; [|discriminate].
    rewrite (slice_to_boundary _ _ _ Ek). simpl. eauto.
  - simpl. eauto.
Qed.

(** Inversion of a successful computation in the option monad. *)
Ltac inv_some :=
  repeat match goal with
  | H : Some _ = Some _ |- _ => injection H; clear H; intros; subst
  | H : (_, _) = (_, _) |- _ => injection H; clear H; intros; subst
  | H : None = Some _ |- _ => discriminate H
  | E : update_cursor_line_column _ _ = Some _ |- _ =>
      let l := fresh "l" in let c := fresh "c" in
      apply update_frame in E; destruct E as (l & c & E); subst
  | H : obind ?m _ = Some _ |- _ =>
      let E := fresh "E" in destruct m eqn:E; simpl in H; [|discriminate H]
  | H : match ?x with _ => _ end = Some _ |- _ =>
      let E := fresh "E" in destruct x eqn:E
  end.

Lemma firstn_length_app : forall (p r : text), firstn (List.length p) (p ++ r) = p.
Proof. induction p as [|c p IH]; intros r; simpl; [reflexivity | rewrite IH; reflexivity]. Qed.

Lemma skipn_length_app : forall (p r : text), skipn (List.length p) (p ++ r) = r.
Proof. induction p as [|c p IH]; intros r; simpl; auto. Qed.

Lemma char_index_end : forall t, char_index t (byte_len t) = Some (List.length t).
Proof. intros t. pose proof (char_index_app t []) as H. rewrite app_nil_r in H. exact H. Qed.

Lemma slice_mid : forall p q r,
  slice (p ++ q ++ r) (byte_len p) (byte_len p + byte_len q) = Some q.
Proof.
  intros p q r. unfold slice.
  rewrite (proj2 (Nat.leb_le _ _)) by lia.
  assert (H1 : char_index (p ++ q ++ r) (byte_len p) = Some (List.length p))
    by apply char_index_app.
  assert (H2 : char_index (p ++ q ++ r) (byte_len p + byte_len q)
               = Some (List.length p + List.length q)).
  { rewrite app_assoc, <- byte_len_app, char_index_app, length_app. reflexivity. }
  rewrite H1. simpl. rewrite H2. simpl.
  replace (List.length p + List.length q - List.length p) with (List.length q) by lia.
  rewrite skipn_length_app, firstn_length_app. reflexivity.
Qed.

Lemma slice_from_app : forall p r, slice_from (p ++ r) (byte_len p) = Some r.
Proof.
  intros p r. unfold slice_from.
  pose proof (slice_mid p r []) as H. rewrite app_nil_r, <- byte_len_app in H. exact H.
Qed.

Lemma insert_str_app : forall p r s, insert_str (p ++ r) (byte_len p) s = Some (p ++ s ++ r).
Proof.
  intros p r s. unfold insert_str. rewrite char_index_app. simpl.
  rewrite firstn_length_app, skipn_length_app. reflexivity.
Qed.

Lemma find_char_app_notin : forall c p q, ~ In c p ->
  find_char c (p ++ q) = option_map (fun x => byte_len p + x) (find_char c q).
Proof.
  intros c p q. induction p as [|a p IH]; intros H; simpl.
  - destruct (find_char c q); reflexivity.
  - destruct (a =? c)%N eqn:E.
    + apply N.eqb_eq in E; subst. exfalso; apply H; left; reflexivity.
    + rewrite IH by (intro; apply H; right; assumption).
      destruct (find_char c q); simpl; [f_equal; lia | reflexivity].
Qed.

Lemma rfind_char_app : forall c p q,
  rfind_char c (p ++ q) =
  match rfind_char c q with Some x => Some (byte_len p + x) | None => rfind_char c p end.
Proof.
  intros c p q. induction p as [|a p IH]; simpl.
  - destruct (rfind_char c q); reflexivity.
  - rewrite IH. destruct (rfind_char c q); simpl; [f_equal; lia | reflexivity].
Qed.

Lemma rfind_char_notin : forall c q, ~ In c q -> rfind_char c q = None.
Proof.
  intros c q. induction q as [|a q IH]; intros H; simpl; [reflexivity|].
  rewrite IH by (intro; apply H; right; assumption).
  destruct (a =? c)%N eqn:E; [|reflexivity].
  apply N.eqb_eq in E; subst. exfalso; apply H; left; reflexivity.
Qed.

(** The line containing a cursor inside [l1 ++ ...] starts right after
    [pre], which is empty or ends with a terminator. *)
Lemma line_start_mid : forall pre l1 r,
  (pre = [] \/ exists pre', pre = pre' ++ [nl]) -> ~ In nl l1 ->
  line_start (pre ++ l1 ++ r) (byte_len (pre ++ l1)) = Some (byte_len pre).
Proof.
  intros pre l1 r Hpre Hl1. unfold line_start.
  rewrite app_assoc, (slice_to_boundary _ _ _ (char_index_app _ _)), firstn_length_app.
  simpl. rewrite rfind_char_app, rfind_char_notin by assumption.
  destruct Hpre as [-> | [pre' ->]]; [reflexivity|].
  rewrite rfind_char_app. simpl. rewrite byte_len_app. simpl. f_equal. lia.
Qed.

Lemma line_end_incl_mid : forall p l2 post, ~ In nl l2 ->
  line_end_incl (p ++ l2 ++ nl :: post) (byte_len p) = Some (byte_len p + byte_len l2 + 1).
Proof.
  intros p l2 post H. unfold line_end_incl. rewrite slice_from_app. simpl.
  rewrite find_char_app_notin by assumption. simpl. f_equal; lia.
Qed.

Definition doc_two_lines : text := str "a" ++ [nl] ++ str "b".

(** The document of C5: a three-character line "ééé" (6 bytes), then lines
    of lengths 2, 0 and 5. *)
Definition doc_columns : text :=
  [e_acute; e_acute; e_acute; nl] ++ str "ab" ++ [nl; nl] ++ str "abcde".

Section Proofs.

Variable ua : char -> bool.

(** C4: on "hello world", [d i w] with the cursor on 'h' removes exactly
    "hello" (cursor at 0); with the cursor on the space it removes only the
    space. *)
Theorem diw_hello_world : forall s,
  s.(vim_mode) = VimMode.Normal ->
  s.(current_operation) = VimOperation.None ->
  (s.(cursor_position) = 0 ->
   exists s', run ua s (str "hello world") [press Key.D; press Key.I; press Key.W]
                = Some (s', str " world")
              /\ s'.(cursor_position) = 0 /\ s'.(register_buffer) = str "hello")
  /\
  (s.(cursor_position) = 5 ->
   exists s', run ua s (str "hello world") [press Key.D; press Key.I; press Key.W]
                = Some (s', str "helloworld")
              /\ s'.(cursor_position) = 5 /\ s'.(register_buffer) = str " ").
Proof.
  intros [cur line col des mode cmd op reg] Hm Ho; simpl in *; subst.
  split; intros Hc; subst; eexists; (split; [reflexivity | split; reflexivity]).
Qed.

(** C9: Enter in Command mode maps ":w", ":q", ":wq" to save, quit,
    save_quit and anything else to no action; the mode becomes Normal, the
    command buffer is cleared and the document is untouched. *)
Theorem command_enter_vocabulary : forall s t m,
  s.(vim_mode) = VimMode.Command ->
  exists s' action,
    handle_key_press ua s Key.Enter t m = Some (s', t, (true, action))
    /\ s'.(vim_mode) = VimMode.Normal /\ s'.(command_buffer) = []
    /\ (s.(command_buffer) = str ":w" -> action = Some (str "save"))
    /\ (s.(command_buffer) = str ":q" -> action = Some (str "quit"))
    /\ (s.(command_buffer) = str ":wq" -> action = Some (str "save_quit"))
    /\ (s.(command_buffer) <> str ":w" -> s.(command_buffer) <> str ":q" ->
        s.(command_buffer) <> str ":wq" -> action = None).
Proof.
  intros s t m Hm.
  unfold handle_key_press; rewrite Hm; simpl.
  eexists; exists (execute_command s); repeat split;
    try (intros H; unfold execute_command; rewrite H; reflexivity).
  intros H1 H2 H3. unfold execute_command.
  destruct (text_eqb (command_buffer s) (str ":w")) eqn:E1;
    [apply text_eqb_eq in E1; contradiction|].
  destruct (text_eqb (command_buffer s) (str ":q")) eqn:E2;
    [apply text_eqb_eq in E2; contradiction|].
  destruct (text_eqb (command_buffer s) (str ":wq")) eqn:E3;
    [apply text_eqb_eq in E3; contradiction|].
  reflexivity.
Qed.

(** C1 (code defect): [dd] on the last line of "a\nb" reaches
    [text.replace_range(2..1, "")], which panics; [dw], [yw], [cw] and [w]
    on "é" slice [text[0..1]], which splits the two-byte character and
    panics. *)
Theorem dispatch_panics_dd_last_line_and_word_ops :
  run ua (editor_at VimMode.Normal 2 1 0 []) doc_two_lines [press Key.D; press Key.D] = None
  /\ run ua (editor_at VimMode.Normal 0 0 0 []) [e_acute] [press Key.D; press Key.W] = None
  /\ run ua (editor_at VimMode.Normal 0 0 0 []) [e_acute] [press Key.Y; press Key.W] = None
  /\ run ua (editor_at VimMode.Normal 0 0 0 []) [e_acute] [press Key.C; press Key.W] = None
  /\ run ua (editor_at VimMode.Normal 0 0 0 []) [e_acute] [press Key.W] = None.
Proof. repeat split. Qed.

(** C2 (code defect): [l] from the initial state on "é" sets the cursor
    to byte 1, inside the character, and the following [text[..1]] panics;
    [h] from the end of "é" does the same with byte 1. *)
Theorem byte_step_splits_codepoint :
  is_char_boundary [e_acute] (cursor_position new + 1) = false
  /\ run ua new [e_acute] [press Key.L] = None
  /\ is_char_boundary [e_acute] (2 - 1) = false
  /\ run ua (editor_at VimMode.Normal 2 0 2 []) [e_acute] [press Key.H] = None.
Proof. repeat split. Qed.

(** C5 (code defect): starting at byte column 4 of "ééé" (after two
    characters) with [desired_column = 4], [j j k k] visits columns 2, 0,
    2 and then 6, not 4: the walk counts four CHARACTERS towards a target
    measured in BYTES. *)
Theorem vertical_moves_multibyte_line :
  let s0 := editor_at VimMode.Normal 4 0 4 [] in
  let col evs := option_map (fun r => cursor_column (fst r)) (run ua s0 doc_columns evs) in
  col [press Key.J] = Some 2
  /\ col [press Key.J; press Key.J] = Some 0
  /\ col [press Key.J; press Key.J; press Key.K] = Some 2
  /\ col [press Key.J; press Key.J; press Key.K; press Key.K] = Some 6.
Proof. repeat split. Qed.

(** C6 (code defect): with register "x" and the cursor on "é", [p]
    inserts at byte [cursor + 1], inside the character: [insert_str]
    panics.  [P] (at the cursor) succeeds. *)
Theorem charwise_paste_after_multibyte_panics :
  run ua (editor_at VimMode.Normal 0 0 0 (str "x")) [e_acute] [press Key.P] = None
  /\ option_map snd
       (run ua (editor_at VimMode.Normal 0 0 0 (str "x")) [e_acute] [KeyPress Key.P shift_mods])
     = Some (str "x" ++ [e_acute]).
Proof. repeat split. Qed.

(** C8 (code defect): [A] then Escape on "é": Escape steps the cursor
    back from byte 2 to byte 1, inside the character, and panics. *)
Theorem insert_escape_steps_back_one_byte :
  option_map (fun r => (cursor_position (fst r), vim_mode (fst r)))
    (run ua new [e_acute] [KeyPress Key.A shift_mods]) = Some (2, VimMode.Insert)
  /\ run ua new [e_acute] [KeyPress Key.A shift_mods; press Key.Escape] = None.
Proof. repeat split. Qed.

(** C10: [x] in Normal mode with no pending operator never writes the
    register: whenever it returns, the register, the mode and the pending
    operation are unchanged; and it does return whenever the cursor is on a
    character boundary. *)
Theorem x_keeps_register_mode_operation : forall s t m,
  s.(vim_mode) = VimMode.Normal ->
  s.(current_operation) = VimOperation.None ->
  (forall s' t' out, handle_key_press ua s Key.X t m = Some (s', t', out) ->
     s'.(register_buffer) = s.(register_buffer)
     /\ s'.(vim_mode) = VimMode.Normal
     /\ s'.(current_operation) = VimOperation.None)
  /\ (is_char_boundary t s.(cursor_position) = true ->
      exists s' t', handle_key_press ua s Key.X t m = Some (s', t', (true, None))).
Proof.
  intros s t m Hm Ho.
  assert (Hx : handle_key_press ua s Key.X t m = handled_edit (key_x s t)).
  { unfold handle_key_press; rewrite Hm.
    unfold handle_normal_mode_key; rewrite Ho; reflexivity. }
  rewrite Hx. split.
  - intros s' t' out H. unfold handled_edit, key_x in H. inv_some; simpl; auto.
  - intros Hb. unfold handled_edit, key_x.
    destruct (cursor_position s <? byte_len t) eqn:Hlt; [|simpl; eauto].
    apply Nat.ltb_lt in Hlt.
    unfold is_char_boundary in Hb.
    destruct (char_index t (cursor_position s)) as [k|] eqn:Ek; [|discriminate].
    pose proof (char_index_sound _ _ _ Ek) as [Hc Hk].
    assert (Hk' : k < List.length t).
    { destruct (Nat.eq_dec k (List.length t)) as [->|]; [|lia].
      rewrite firstn_all in Hc; lia. }
    unfold remove. rewrite Ek. simpl.
    destruct (skipn k t) as [|c rest] eqn:Es.
    { apply (f_equal (@List.length _)) in Es. rewrite length_skipn in Es. simpl in Es. lia. }
    simpl.
    destruct (update_total s (firstn k t ++ rest)) as [s' Hs'].
    { left. unfold is_char_boundary. rewrite Hc, char_index_app. reflexivity. }
    rewrite Hs'. simpl. eauto.
Qed.

(** *** Where the register is written *)

Ltac reg_done :=
  simpl; first [ left; reflexivity | right; eauto | reflexivity | eauto ].

Lemma normal_key_reg : forall s key t m s' t' o,
  normal_key s key t m = Some (s', t', o) -> s'.(register_buffer) = s.(register_buffer).
Proof.
  intros s key t m s' t' o H.
  unfold normal_key in H; destruct key;
  unfold handled, handled_edit, unhandled, paste, move_left, move_right, move_up,
    move_down, word_forward, word_backward, move_line_start, move_line_end,
    key_i, key_a, key_x, key_o in H;
  unfold move_vertical, move_horizontal, move_to in H;
  inv_some; reflexivity.
Qed.

Lemma insert_key_reg : forall s key t m s' t' o,
  handle_insert_mode_key s key t m = Some (s', t', o) ->
  s'.(register_buffer) = s.(register_buffer).
Proof.
  intros s key t m s' t' o H.
  unfold handle_insert_mode_key in H; destruct key;
  unfold handled, handled_edit, unhandled, insert_escape, insert_enter, insert_backspace,
    key_x, move_left, move_right, move_up, move_down in H;
  unfold move_vertical, move_horizontal, move_to in H;
  inv_some; reflexivity.
Qed.

Lemma command_key_reg : forall s key t m s' t' o,
  handle_command_mode_key s key t m = Some (s', t', o) ->
  s'.(register_buffer) = s.(register_buffer).
Proof.
  intros s key t m s' t' o H.
  unfold handle_command_mode_key in H; destruct key; inv_some; reflexivity.
Qed.

Lemma text_input_reg : forall s c t s' t',
  handle_text_input s c t = Some (s', t') -> s'.(register_buffer) = s.(register_buffer).
Proof.
  intros s c t s' t' H.
  unfold handle_text_input, move_to in H; inv_some; reflexivity.
Qed.

(** A span-consuming arm leaves the register as it was or sets it to a
    slice of the text. *)
Definition reg_from_slice (s s' : SimpleEditor) (t : text) : Prop :=
  s'.(register_buffer) = s.(register_buffer)
  \/ exists a b, slice t a b = Some s'.(register_buffer).

Lemma word_operator_reg : forall b s t s' t',
  word_operator b s t = Some (s', t') -> reg_from_slice s s' t.
Proof. intros b s t s' t' H. unfold reg_from_slice, word_operator in *; inv_some; reg_done. Qed.

Lemma delete_line_reg : forall s t s' t',
  delete_line s t = Some (s', t') -> reg_from_slice s s' t.
Proof. intros s t s' t' H. unfold reg_from_slice, delete_line in *; inv_some; reg_done. Qed.

Lemma yank_line_reg : forall s t s',
  yank_line s t = Some s' -> reg_from_slice s s' t.
Proof. intros s t s' H. unfold reg_from_slice, yank_line in *; inv_some; reg_done. Qed.

Lemma inner_word_operator_reg : forall s t s' t',
  inner_word_operator ua s t = Some (s', t') -> reg_from_slice s s' t.
Proof. intros s t s' t' H. unfold reg_from_slice, inner_word_operator in *; inv_some; reg_done. Qed.

Lemma change_line_reg : forall s t s' t',
  change_line s t = Some (s', t') -> reg_from_slice s s' t.
Proof. intros s t s' t' H. unfold reg_from_slice, change_line in *; inv_some; reg_done. Qed.

Lemma handle_pending_reg : forall s key t p,
  handle_pending ua s key t = Some p ->
  match p with
  | FallThrough s' => s'.(register_buffer) = s.(register_buffer)
  | Finished s' _ =>
      s'.(register_buffer) = s.(register_buffer)
      \/ (consumes_span s.(current_operation) key = true
          /\ exists a b, slice t a b = Some s'.(register_buffer))
      \/ ((s.(current_operation) = VimOperation.Delete
           \/ s.(current_operation) = VimOperation.Change)
          /\ key = Key.I /\ s'.(register_buffer) = str "i")
  end.
Proof.
  intros s key t p H. unfold handle_pending, finish in H.
  destruct (current_operation s) eqn:Eo, key; inv_some; simpl; auto;
  repeat match goal with
  | E : word_operator _ _ _ = Some _ |- _ => apply word_operator_reg in E
  | E : delete_line _ _ = Some _ |- _ => apply delete_line_reg in E
  | E : yank_line _ _ = Some _ |- _ => apply yank_line_reg in E
  | E : inner_word_operator _ _ _ = Some _ |- _ => apply inner_word_operator_reg in E
  | E : change_line _ _ = Some _ |- _ => apply change_line_reg in E
  | E : option_map _ ?m = Some _ |- _ =>
      let E' := fresh "E" in destruct m as [[? ?]|] eqn:E'; simpl in E; inv_some
  end;
  unfold reg_from_slice in *; simpl in *; rewrite ?Eo; simpl;
  intuition eauto.
Qed.

(** C3 (as the code has it): a dispatch call leaves the register
    unchanged, except (a) when a pending Delete/Yank/Change consumes its
    span ([dw], [dd], [yw], [yy], [cw], [cc], [diw], [ciw]), which
    overwrites the register with a slice of the document as it was before
    the key, and (b) when [i] follows a pending Delete or Change, which
    overwrites the register with the one-character string "i" (the
    inner-word marker).  Paste, text input, Insert and Command mode, and
    abandoning an operator never write it. *)
Theorem register_written_by_operators : forall s t ev s' t',
  step ua s t ev = Some (s', t') ->
  s'.(register_buffer) = s.(register_buffer)
  \/ (exists key m, ev = KeyPress key m /\ s.(vim_mode) = VimMode.Normal
        /\ consumes_span s.(current_operation) key = true
        /\ exists a b, slice t a b = Some s'.(register_buffer))
  \/ (exists m, ev = KeyPress Key.I m /\ s.(vim_mode) = VimMode.Normal
        /\ (s.(current_operation) = VimOperation.Delete
            \/ s.(current_operation) = VimOperation.Change)
        /\ s'.(register_buffer) = str "i").
Proof.
  intros s t ev s' t' H.
  destruct ev as [key m | c]; simpl in H.
  - destruct (handle_key_press ua s key t m) as [[[s1 t1] o]|] eqn:Ek;
      simpl in H; [|discriminate].
    injection H as <- <-.
    unfold handle_key_press in Ek. destruct (vim_mode s) eqn:Em.
    + unfold handle_normal_mode_key in Ek.
      destruct (VimOperation.eqb (current_operation s) VimOperation.None) eqn:Eo.
      * simpl in Ek. left. eapply normal_key_reg; eauto.
      * destruct (handle_pending ua s key t) as [p|] eqn:Ep; simpl in Ek; [|discriminate].
        apply handle_pending_reg in Ep. destruct p as [s2 t2 | s2].
        -- injection Ek as <- <- <-.
           destruct Ep as [E|[[E1 E2]|[E1 [E2 E3]]]].
           ++ left; exact E.
           ++ right; left; eauto 7.
           ++ right; right; subst; eauto.
        -- left. rewrite <- Ep. eapply normal_key_reg; eauto.
    + left; eapply insert_key_reg; eauto.
    + left; eapply command_key_reg; eauto.
  - left. eapply text_input_reg; eauto.
Qed.

Lemma run_cons : forall s t ev evs,
  run ua s t (ev :: evs) = (let? st := step ua s t ev in let '(s', t') := st in run ua s' t' evs).
Proof. reflexivity. Qed.

Lemma step_key : forall s t k m,
  step ua s t (KeyPress k m) =
  (let? o := handle_key_press ua s k t m in let '(s', t', _) := o in Some (s', t')).
Proof. reflexivity. Qed.

(** C7 (as the code has it): on a line that ends with a terminator
    ([pre] is empty or ends with one, the line is [l1 ++ l2], the cursor is
    at any character boundary of it, between [l1] and [l2]), [y y] copies
    the line with its terminator into the register, and [p] then inserts
    that copy immediately below the line, leaving the register unchanged.
    (On a last line without a terminator the copy has no terminator and
    [p] pastes it character-wise, see [yy_p_unterminated_last_line].) *)
Theorem yy_p_duplicates_terminated_line : forall s pre l1 l2 post,
  s.(vim_mode) = VimMode.Normal ->
  s.(current_operation) = VimOperation.None ->
  (pre = [] \/ exists pre', pre = pre' ++ [nl]) ->
  ~ In nl (l1 ++ l2) ->
  s.(cursor_position) = byte_len (pre ++ l1) ->
  exists s1 s2,
    run ua s (pre ++ l1 ++ l2 ++ nl :: post) [press Key.Y; press Key.Y]
      = Some (s1, pre ++ l1 ++ l2 ++ nl :: post)
    /\ s1.(register_buffer) = l1 ++ l2 ++ [nl]
    /\ step ua s1 (pre ++ l1 ++ l2 ++ nl :: post) (press Key.P)
         = Some (s2, pre ++ l1 ++ l2 ++ nl :: l1 ++ l2 ++ nl :: post)
    /\ s2.(register_buffer) = s1.(register_buffer).
Proof.
  intros s pre l1 l2 post Hm Ho Hpre Hnl Hc.
  assert (Hnl1 : ~ In nl l1) by (intro; apply Hnl, in_or_app; left; assumption).
  assert (Hnl2 : ~ In nl l2) by (intro; apply Hnl, in_or_app; right; assumption).
  set (reg := l1 ++ l2 ++ [nl]).
  assert (Ht : pre ++ l1 ++ l2 ++ nl :: post = pre ++ reg ++ post)
    by (unfold reg; rewrite <- !app_assoc; reflexivity).
  assert (Ht' : pre ++ l1 ++ l2 ++ nl :: l1 ++ l2 ++ nl :: post = (pre ++ reg) ++ reg ++ post)
    by (unfold reg; rewrite <- !app_assoc; reflexivity).
  assert (Hle_val : cursor_position s + byte_len l2 + 1 = byte_len (pre ++ reg))
    by (rewrite Hc; unfold reg; rewrite !byte_len_app; simpl; lia).
  remember (pre ++ l1 ++ l2 ++ nl :: post) as t eqn:Et.
  assert (Hls : line_start t (cursor_position s) = Some (byte_len pre)).
  { subst t; rewrite Hc; apply line_start_mid; assumption. }
  assert (Hle : line_end_incl t (cursor_position s) = Some (byte_len (pre ++ reg))).
  { rewrite <- Hle_val. subst t; rewrite Hc, app_assoc. apply line_end_incl_mid; assumption. }
  assert (Hreg : slice t (byte_len pre) (byte_len (pre ++ reg)) = Some reg).
  { rewrite Ht, byte_len_app. apply slice_mid. }
  set (s1 := set_current_operation
               (set_register_buffer (set_current_operation s VimOperation.Yank) reg)
               VimOperation.None).
  exists s1.
  assert (H1 : handle_key_press ua s Key.Y t no_mods
               = Some (set_current_operation s VimOperation.Yank, t, (true, None))).
  { unfold handle_key_press; rewrite Hm; unfold handle_normal_mode_key; rewrite Ho.
    reflexivity. }
  assert (H2 : handle_key_press ua (set_current_operation s VimOperation.Yank) Key.Y t no_mods
               = Some (s1, t, (true, None))).
  { unfold handle_key_press. cbn [vim_mode set_current_operation]. rewrite Hm.
    unfold handle_normal_mode_key, handle_pending.
    cbn [current_operation set_current_operation VimOperation.eqb].
    unfold finish, yank_line.
    change (cursor_position (set_current_operation s VimOperation.Yank))
      with (cursor_position s).
    rewrite Hls, Hle. cbn [obind]. rewrite Hreg. reflexivity. }
  assert (Hne : is_empty reg = false) by (unfold reg; destruct l1; [destruct l2|]; reflexivity).
  assert (Hcont : contains reg nl = true).
  { unfold contains. apply existsb_exists. exists nl. split; [|apply N.eqb_refl].
    unfold reg. apply in_or_app; right; apply in_or_app; right; left; reflexivity. }
  assert (Hins : insert_str t (byte_len (pre ++ reg)) reg = Some ((pre ++ reg) ++ reg ++ post)).
  { rewrite Ht, app_assoc. apply insert_str_app. }
  destruct (update_total (set_cursor_position s1 (byte_len (pre ++ reg) + byte_len reg))
                         ((pre ++ reg) ++ reg ++ post)) as [s2 Hs2].
  { left. cbn [cursor_position set_cursor_position]. rewrite <- byte_len_app, app_assoc.
    unfold is_char_boundary. rewrite char_index_app. reflexivity. }
  exists s2. repeat split.
  - unfold press. rewrite run_cons, step_key, H1. cbn [obind].
    rewrite run_cons, step_key, H2. reflexivity.
  - unfold press. rewrite step_key. unfold handle_key_press. cbn [vim_mode s1 set_current_operation set_register_buffer].
    rewrite Hm. unfold handle_normal_mode_key.
    cbn [current_operation s1 set_current_operation VimOperation.eqb].
    unfold normal_key, handled_edit, paste. cbn [obind shift no_mods].
    change (register_buffer s1) with reg.
    change (cursor_position s1) with (cursor_position s).
    rewrite Hne, Hcont. cbn [negb]. rewrite Hle. cbn [obind].
    rewrite Hins. cbn [obind]. rewrite Hs2, Ht'. reflexivity.
  - apply update_frame in Hs2 as (l & c & ->). reflexivity.
Qed.

End Proofs.

(** C3 counterexample: [d i] overwrites a register holding "abc" with the
    literal "i", and abandoning the operator (Escape) leaves it there. *)
Lemma inner_modifier_overwrites_register :
  option_map (fun r => register_buffer (fst r))
    (run no_unicode_alphanumeric (editor_at VimMode.Normal 0 0 0 (str "abc")) (str "abc")
       [press Key.D; press Key.I; press Key.Escape])
  = Some (str "i").
Proof. reflexivity. Qed.

(** C7 counterexample: on the single unterminated line "abc", [y y p]
    yields "aabcbc": the yanked "abc" has no terminator, so [p] pastes it
    character-wise after the cursor instead of below the line. *)
Lemma yy_p_unterminated_last_line :
  option_map snd
    (run no_unicode_alphanumeric (editor_at VimMode.Normal 0 0 0 []) (str "abc")
       [press Key.Y; press Key.Y; press Key.P])
  = Some (str "aabcbc").
Proof. reflexivity. Qed.

(** Instances of the theorems with hypotheses, at concrete states. *)

Lemma diw_hello_world_witness :
  let s := editor_at VimMode.Normal 0 0 0 [] in
  s.(vim_mode) = VimMode.Normal /\ s.(current_operation) = VimOperation.None
  /\ exists s', run no_unicode_alphanumeric s (str "hello world")
                  [press Key.D; press Key.I; press Key.W] = Some (s', str " world")
                /\ s'.(cursor_position) = 0 /\ s'.(register_buffer) = str "hello".
Proof.
  intros s. split; [reflexivity|]. split; [reflexivity|].
  apply (diw_hello_world no_unicode_alphanumeric s); reflexivity.
Defined.

Lemma command_enter_vocabulary_witness :
  let s := mkEditor 0 0 0 0 VimMode.Command (str ":q") VimOperation.None [] in
  s.(vim_mode) = VimMode.Command
  /\ exists s' action,
    handle_key_press no_unicode_alphanumeric s Key.Enter (str "abc") no_mods
      = Some (s', str "abc", (true, action))
    /\ s'.(vim_mode) = VimMode.Normal /\ s'.(command_buffer) = []
    /\ (s.(command_buffer) = str ":w" -> action = Some (str "save"))
    /\ (s.(command_buffer) = str ":q" -> action = Some (str "quit"))
    /\ (s.(command_buffer) = str ":wq" -> action = Some (str "save_quit"))
    /\ (s.(command_buffer) <> str ":w" -> s.(command_buffer) <> str ":q" ->
        s.(command_buffer) <> str ":wq" -> action = None).
Proof.
  intros s. split; [reflexivity|].
  apply (command_enter_vocabulary no_unicode_alphanumeric s (str "abc") no_mods).
  reflexivity.
Defined.

Lemma x_keeps_register_mode_operation_witness :
  let s := editor_at VimMode.Normal 0 0 0 (str "r") in
  s.(vim_mode) = VimMode.Normal /\ s.(current_operation) = VimOperation.None
  /\ is_char_boundary (str "ab") s.(cursor_position) = true
  /\ exists s' t',
       handle_key_press no_unicode_alphanumeric s Key.X (str "ab") no_mods
         = Some (s', t', (true, None)).
Proof.
  intros s. split; [reflexivity|]. split; [reflexivity|]. split; [reflexivity|].
  apply (x_keeps_register_mode_operation no_unicode_alphanumeric s (str "ab") no_mods);
    reflexivity.
Defined.

Lemma register_written_by_operators_witness :
  let s := mkEditor 0 0 0 0 VimMode.Normal [] VimOperation.Delete (str "zz") in
  let s' := mkEditor 0 0 0 0 VimMode.Normal [] VimOperation.None (str "ab ") in
  step no_unicode_alphanumeric s (str "ab cd") (press Key.W) = Some (s', str "cd")
  /\ (s'.(register_buffer) = s.(register_buffer)
      \/ (exists key m, press Key.W = KeyPress key m /\ s.(vim_mode) = VimMode.Normal
            /\ consumes_span s.(current_operation) key = true
            /\ exists a b, slice (str "ab cd") a b = Some s'.(register_buffer))
      \/ (exists m, press Key.W = KeyPress Key.I m /\ s.(vim_mode) = VimMode.Normal
            /\ (s.(current_operation) = VimOperation.Delete
                \/ s.(current_operation) = VimOperation.Change)
            /\ s'.(register_buffer) = str "i")).
Proof.
  intros s s'. split; [reflexivity|].
  apply (register_written_by_operators no_unicode_alphanumeric s (str "ab cd") (press Key.W) s' (str "cd")).
  reflexivity.
Defined.

Lemma yy_p_duplicates_terminated_line_witness :
  let s := editor_at VimMode.Normal 1 0 1 [] in
  s.(vim_mode) = VimMode.Normal /\ s.(current_operation) = VimOperation.None
  /\ ([] : text) = [] /\ ~ In nl (str "a" ++ str "b")
  /\ s.(cursor_position) = byte_len ([] ++ str "a")
  /\ exists s1 s2,
    run no_unicode_alphanumeric s ([] ++ str "a" ++ str "b" ++ nl :: str "c")
      [press Key.Y; press Key.Y]
      = Some (s1, [] ++ str "a" ++ str "b" ++ nl :: str "c")
    /\ s1.(register_buffer) = str "a" ++ str "b" ++ [nl]
    /\ step no_unicode_alphanumeric s1 ([] ++ str "a" ++ str "b" ++ nl :: str "c") (press Key.P)
         = Some (s2, [] ++ str "a" ++ str "b" ++ nl :: str "a" ++ str "b" ++ nl :: str "c")
    /\ s2.(register_buffer) = s1.(register_buffer).
Proof.
  intros s.
  assert (Hnl : ~ In nl (str "a" ++ str "b")) by (simpl; intros [H|[H|[]]]; discriminate).
  split; [reflexivity|]. split; [reflexivity|]. split; [reflexivity|].
  split; [exact Hnl|]. split; [reflexivity|].
  apply (yy_p_duplicates_terminated_line no_unicode_alphanumeric s [] (str "a") (str "b") (str "c"));
    [reflexivity | reflexivity | left; reflexivity | exact Hnl | reflexivity].
Defined.

(** ** Further properties of the editor *)

Lemma byte_len_firstn_skipn : forall k t,
  byte_len t = byte_len (firstn k t) + byte_len (skipn k t).
Proof. intros k t. rewrite <- byte_len_app, firstn_skipn. reflexivity. Qed.

Lemma firstn_split : forall (t : text) k1 k2, k1 <= k2 ->
  firstn k2 t = firstn k1 t ++ firstn (k2 - k1) (skipn k1 t).
Proof.
  induction t as [|c t IH]; intros [|k1] [|k2] H; simpl; rewrite ?firstn_nil; auto; try lia.
  rewrite (IH k1 k2) by lia. reflexivity.
Qed.

Lemma byte_len_firstn_mono : forall (t : text) k1 k2, k1 <= k2 ->
  byte_len (firstn k1 t) <= byte_len (firstn k2 t).
Proof. intros t k1 k2 H. rewrite (firstn_split t k1 k2 H), byte_len_app. lia. Qed.

Lemma byte_len_firstn_strict : forall (t : text) k1 k2, k1 < k2 -> k2 <= List.length t ->
  byte_len (firstn k1 t) < byte_len (firstn k2 t).
Proof.
  intros t k1 k2 H1 H2. rewrite (firstn_split t k1 k2) by lia. rewrite byte_len_app.
  destruct (skipn k1 t) as [|c r] eqn:E.
  - apply (f_equal (@List.length _)) in E. rewrite length_skipn in E. simpl in E. lia.
  - replace (k2 - k1) with (S (k2 - k1 - 1)) by lia. simpl.
    pose proof (len_utf8_pos c). lia.
Qed.

Lemma byte_len_firstn_le : forall (t : text) k, byte_len (firstn k t) <= byte_len t.
Proof. intros t k. pose proof (byte_len_firstn_skipn k t). lia. Qed.

Lemma slice_len : forall t a b r, slice t a b = Some r ->
  a <= b /\ b <= byte_len t /\ byte_len r = b - a.
Proof.
  intros t a b r H. unfold slice in H.
  destruct (a <=? b) eqn:Eab; [|discriminate]. apply Nat.leb_le in Eab.
  destruct (char_index t a) as [ka|] eqn:Ea; [|discriminate]. simpl in H.
  destruct (char_index t b) as [kb|] eqn:Eb; [|discriminate]. simpl in H.
  injection H as <-.
  apply char_index_sound in Ea as [Ha _]. apply char_index_sound in Eb as [Hb _].
  pose proof (byte_len_firstn_le t kb). assert (b <= byte_len t) by lia.
  destruct (Nat.le_gt_cases ka kb) as [Hk|Hk].
  - rewrite (firstn_split t ka kb Hk), byte_len_app in Hb. lia.
  - pose proof (byte_len_firstn_mono t kb ka). replace (kb - ka) with 0 by lia.
    simpl. lia.
Qed.

Lemma replace_range_len : forall t a b s t', replace_range t a b s = Some t' ->
  a <= b /\ b <= byte_len t /\ byte_len t' = byte_len t - (b - a) + byte_len s.
Proof.
  intros t a b s t' H. unfold replace_range in H.
  destruct (char_index t a) as [ka|] eqn:Ea; [|discriminate]. simpl in H.
  destruct (char_index t b) as [kb|] eqn:Eb; [|discriminate]. simpl in H.
  destruct (a <=? b) eqn:Eab; [|discriminate]. apply Nat.leb_le in Eab.
  injection H as <-.
  apply char_index_sound in Ea as [Ha Hka]. apply char_index_sound in Eb as [Hb Hkb].
  assert (Hk : ka <= kb).
  { destruct (Nat.le_gt_cases ka kb) as [|Hk]; [assumption|].
    pose proof (byte_len_firstn_strict t kb ka Hk Hka). lia. }
  pose proof (byte_len_firstn_skipn ka t). pose proof (byte_len_firstn_skipn kb t).
  rewrite !byte_len_app. lia.
Qed.

Lemma insert_str_len : forall t i s t', insert_str t i s = Some t' ->
  i <= byte_len t /\ byte_len t' = byte_len t + byte_len s.
Proof.
  intros t i s t' H. unfold insert_str in H.
  destruct (char_index t i) as [k|] eqn:Ek; [|discriminate]. simpl in H. injection H as <-.
  apply char_index_sound in Ek as [Hi _].
  pose proof (byte_len_firstn_skipn k t). rewrite !byte_len_app. lia.
Qed.

Lemma insert_len : forall t i c t', insert t i c = Some t' ->
  i <= byte_len t /\ byte_len t' = byte_len t + len_utf8 c.
Proof.
  intros t i c t' H. apply insert_str_len in H. simpl in H. lia.
Qed.

Lemma remove_len : forall t i t', remove t i = Some t' ->
  exists c, i + len_utf8 c <= byte_len t /\ byte_len t' = byte_len t - len_utf8 c.
Proof.
  intros t i t' H. unfold remove in H.
  destruct (char_index t i) as [k|] eqn:Ek; [|discriminate]. simpl in H.
  destruct (skipn k t) as [|c rest] eqn:Es; [discriminate|]. injection H as <-.
  apply char_index_sound in Ek as [Hi _].
  pose proof (byte_len_firstn_skipn k t) as Hl. rewrite Es in Hl. simpl in Hl.
  exists c. rewrite byte_len_app. lia.
Qed.

Lemma len_utf8_nl : len_utf8 nl = 1.
Proof. reflexivity. Qed.

Lemma find_char_lt : forall c t p, find_char c t = Some p -> p + len_utf8 c <= byte_len t.
Proof.
  intros c t. induction t as [|x t IH]; intros p H; simpl in H; [discriminate|].
  destruct (x =? c)%N eqn:E.
  - injection H as <-. apply N.eqb_eq in E; subst. simpl. lia.
  - destruct (find_char c t) as [p'|] eqn:E'; simpl in H; [|discriminate].
    injection H as <-. specialize (IH p' eq_refl). simpl. lia.
Qed.

Lemma rfind_char_lt : forall c t p, rfind_char c t = Some p -> p + len_utf8 c <= byte_len t.
Proof.
  intros c t. induction t as [|x t IH]; intros p H; simpl in H; [discriminate|].
  destruct (rfind_char c t) as [p'|] eqn:E'.
  - injection H as <-. specialize (IH p' eq_refl). simpl. lia.
  - destruct (x =? c)%N eqn:E; [|discriminate].
    injection H as <-. apply N.eqb_eq in E; subst. simpl. lia.
Qed.

Lemma line_start_le : forall t cur ls, line_start t cur = Some ls -> ls <= cur <= byte_len t.
Proof.
  intros t cur ls H. unfold line_start, slice_to in H.
  destruct (slice t 0 cur) as [before|] eqn:E; simpl in H; [|discriminate].
  injection H as <-. apply slice_len in E as (_ & E1 & E2).
  destruct (rfind_char nl before) as [p|] eqn:Ep; [|lia].
  apply rfind_char_lt in Ep. rewrite len_utf8_nl in Ep. lia.
Qed.

Lemma line_end_le : forall t cur le, line_end t cur = Some le -> cur <= le <= byte_len t.
Proof.
  intros t cur le H. unfold line_end, slice_from in H.
  destruct (slice t cur (byte_len t)) as [after|] eqn:E; simpl in H; [|discriminate].
  injection H as <-. apply slice_len in E as (E0 & E1 & E2).
  destruct (find_char nl after) as [p|] eqn:Ep; [|lia].
  apply find_char_lt in Ep. rewrite len_utf8_nl in Ep. lia.
Qed.

Lemma line_end_incl_le : forall t cur le, line_end_incl t cur = Some le -> cur <= le <= byte_len t.
Proof.
  intros t cur le H. unfold line_end_incl, slice_from in H.
  destruct (slice t cur (byte_len t)) as [after|] eqn:E; simpl in H; [|discriminate].
  injection H as <-. apply slice_len in E as (E0 & E1 & E2).
  destruct (find_char nl after) as [p|] eqn:Ep; [|lia].
  apply find_char_lt in Ep. rewrite len_utf8_nl in Ep. lia.
Qed.

Lemma slice_from_first : forall t p rest c, slice_from t p = Some rest ->
  first_char rest = Some c -> p + len_utf8 c <= byte_len t.
Proof.
  intros t p rest c H Hc. unfold slice_from in H. apply slice_len in H as (H0 & H1 & H2).
  destruct rest as [|x rest]; [discriminate|]. injection Hc as ->. simpl in H2. lia.
Qed.

Lemma walk_columns_le : forall t lim f p r, p <= byte_len t ->
  walk_columns t p lim f = Some r -> r <= byte_len t.
Proof.
  intros t lim f. induction f as [|f IH]; intros p r Hp H; simpl in H.
  - injection H as <-; assumption.
  - destruct (p <? lim); [|injection H as <-; assumption].
    destruct (slice_from t p) as [rest|] eqn:E; simpl in H; [|discriminate].
    destruct (first_char rest) as [c|] eqn:Ec; [|injection H as <-; assumption].
    apply (IH _ _ (slice_from_first _ _ _ _ E Ec) H).
Qed.

Lemma next_line_le : forall s t pos,
  find_position_on_next_line s t = Some (Some pos) -> pos <= byte_len t.
Proof.
  intros s t pos H. unfold find_position_on_next_line in H.
  destruct (is_empty t); [discriminate|].
  destruct (slice_from t (cursor_position s)) as [after|] eqn:E; simpl in H; [|discriminate].
  destruct (find_char nl after) as [off|]; [|discriminate].
  destruct (byte_len t <=? cursor_position s + off + 1) eqn:El; [discriminate|].
  apply Nat.leb_gt in El.
  destruct (slice_from t (cursor_position s + off + 1)) as [rest|]; simpl in H; [|discriminate].
  destruct (_ =? _); [injection H as <-; lia|].
  destruct (walk_columns _ _ _ _) as [r|] eqn:Ew; simpl in H; [|discriminate].
  injection H as <-. eapply walk_columns_le; [|exact Ew]. lia.
Qed.

Lemma prev_line_le : forall s t pos,
  find_position_on_previous_line s t = Some (Some pos) -> pos <= byte_len t.
Proof.
  intros s t pos H. unfold find_position_on_previous_line in H.
  destruct (is_empty t); [discriminate|].
  destruct (line_start t (cursor_position s)) as [cls|] eqn:E1; simpl in H; [|discriminate].
  apply line_start_le in E1.
  destruct (cls =? 0); [discriminate|].
  destruct (line_start t (cls - 1)) as [pls|] eqn:E2; simpl in H; [|discriminate].
  apply line_start_le in E2.
  destruct (_ =? _); [injection H as <-; lia|].
  destruct (walk_columns _ _ _ _) as [r|] eqn:Ew; simpl in H; [|discriminate].
  injection H as <-. eapply walk_columns_le; [|exact Ew]. lia.
Qed.

Ltac bounds :=
  repeat match goal with
  | E : slice _ _ _ = Some _ |- _ => apply slice_len in E
  | E : replace_range _ _ _ _ = Some _ |- _ => apply replace_range_len in E
  | E : insert_str _ _ _ = Some _ |- _ => apply insert_str_len in E
  | E : insert _ _ _ = Some _ |- _ => apply insert_len in E
  | E : remove _ _ = Some _ |- _ =>
      apply remove_len in E; let c := fresh "c" in destruct E as (c & ? & ?);
      pose proof (len_utf8_pos c)
  | E : line_start _ _ = Some _ |- _ => apply line_start_le in E
  | E : line_end _ _ = Some _ |- _ => apply line_end_le in E
  | E : line_end_incl _ _ = Some _ |- _ => apply line_end_incl_le in E
  | E : find_position_on_next_line _ _ = Some (Some _) |- _ => apply next_line_le in E
  | E : find_position_on_previous_line _ _ = Some (Some _) |- _ => apply prev_line_le in E
  | E : (_ <? _) = true |- _ => apply Nat.ltb_lt in E
  | E : (_ <? _) = false |- _ => apply Nat.ltb_ge in E
  | E : (_ <=? _) = true |- _ => apply Nat.leb_le in E
  | E : (_ <=? _) = false |- _ => apply Nat.leb_gt in E
  | E : (_ && _) = true |- _ => apply andb_prop in E
  | E : _ /\ _ |- _ => destruct E
  | |- context [if ?b then _ else _] => destruct b eqn:?
  end.

Section Bound.
Variable ua : char -> bool.

Lemma normal_key_bound : forall s key t m s' t' o,
  normal_key s key t m = Some (s', t', o) ->
  cursor_position s <= byte_len t -> cursor_position s' <= byte_len t'.
Proof.
  intros s key t m s' t' o H Hb.
  unfold normal_key in H; destruct key;
  unfold handled, handled_edit, unhandled, paste, move_left, move_right, move_up,
    move_down, word_forward, word_backward, move_line_start, move_line_end,
    key_i, key_a, key_x, key_o in H;
  unfold move_vertical, move_horizontal, move_to in H;
  inv_some; bounds; rewrite ?len_utf8_nl in *; simpl in *; try lia.
Qed.

Lemma insert_key_bound : forall s key t m s' t' o,
  handle_insert_mode_key s key t m = Some (s', t', o) ->
  cursor_position s <= byte_len t -> cursor_position s' <= byte_len t'.
Proof.
  intros s key t m s' t' o H Hb.
  unfold handle_insert_mode_key in H; destruct key;
  unfold handled, handled_edit, unhandled, insert_escape, insert_enter, insert_backspace,
    key_x, move_left, move_right, move_up, move_down in H;
  unfold move_vertical, move_horizontal, move_to in H;
  inv_some; bounds; rewrite ?len_utf8_nl in *; simpl in *; try lia.
Qed.

Lemma command_key_bound : forall s key t m s' t' o,
  handle_command_mode_key s key t m = Some (s', t', o) ->
  cursor_position s <= byte_len t -> cursor_position s' <= byte_len t'.
Proof.
  intros s key t m s' t' o H Hb.
  unfold handle_command_mode_key in H; destruct key; inv_some; simpl; assumption.
Qed.

Lemma text_input_bound : forall s c t s' t',
  handle_text_input s c t = Some (s', t') ->
  cursor_position s <= byte_len t -> cursor_position s' <= byte_len t'.
Proof.
  intros s c t s' t' H Hb.
  unfold handle_text_input, move_to in H; inv_some; bounds; simpl in *;
  pose proof (len_utf8_pos c); try lia.
Qed.

Lemma pending_bound : forall s key t p,
  handle_pending ua s key t = Some p -> cursor_position s <= byte_len t ->
  match p with
  | Finished s' t' => cursor_position s' <= byte_len t'
  | FallThrough s' => cursor_position s' = cursor_position s
  end.
Proof.
  intros s key t p H Hb.
  unfold handle_pending, finish in H.
  destruct (current_operation s), key;
  unfold word_operator, delete_line, yank_line, inner_word_operator, change_line in H;
  inv_some;
  repeat match goal with
  | E : option_map _ ?m = Some _ |- _ =>
      let E' := fresh "E" in
      first [ destruct m as [[? ?]|] eqn:E' | destruct m as [?|] eqn:E' ];
      simpl in E; inv_some
  end;
  bounds; simpl in *; try lia.
Qed.

Lemma step_bound : forall s t ev s' t',
  step ua s t ev = Some (s', t') ->
  cursor_position s <= byte_len t -> cursor_position s' <= byte_len t'.
Proof.
  intros s t ev s' t' H Hb.
  destruct ev as [key m | c]; simpl in H.
  - destruct (handle_key_press ua s key t m) as [[[s1 t1] o]|] eqn:Ek;
      simpl in H; [|discriminate].
    injection H as <- <-.
    unfold handle_key_press in Ek. destruct (vim_mode s).
    + unfold handle_normal_mode_key in Ek.
      destruct (VimOperation.eqb (current_operation s) VimOperation.None).
      * simpl in Ek. eapply normal_key_bound; eauto.
      * destruct (handle_pending ua s key t) as [p|] eqn:Ep; simpl in Ek; [|discriminate].
        apply pending_bound in Ep; [|assumption]. destruct p as [s2 t2 | s2].
        -- injection Ek as <- <- <-. assumption.
        -- eapply normal_key_bound; [eassumption|]. rewrite Ep. assumption.
    + eapply insert_key_bound; eauto.
    + eapply command_key_bound; eauto.
  - eapply text_input_bound; eauto.
Qed.

(** X1: Over any run of events, a cursor that starts within the document
    stays within it. *)
Lemma run_bound : forall evs s t s' t',
  run ua s t evs = Some (s', t') ->
  cursor_position s <= byte_len t -> cursor_position s' <= byte_len t'.
Proof.
  induction evs as [|ev evs IH]; intros s t s' t' H Hb; simpl in H.
  - injection H as <- <-; assumption.
  - destruct (step ua s t ev) as [[s1 t1]|] eqn:E; simpl in H; [|discriminate].
    eapply IH; [exact H|]. eapply step_bound; eauto.
Qed.
End Bound.


Section Cmd.
Variable ua : char -> bool.

Ltac cmd_done Hok :=
  unfold cmd_ok; simpl;
  first [ exact Hok | intros ?; discriminate | intros _; exists []; reflexivity ].

Lemma normal_key_cmd : forall s key t m s' t' o,
  normal_key s key t m = Some (s', t', o) -> cmd_ok s -> cmd_ok s'.
Proof.
  intros s key t m s' t' o H Hok.
  unfold normal_key in H; destruct key;
  unfold handled, handled_edit, unhandled, paste, move_left, move_right, move_up,
    move_down, word_forward, word_backward, move_line_start, move_line_end,
    key_i, key_a, key_x, key_o in H;
  unfold move_vertical, move_horizontal, move_to in H;
  inv_some; cmd_done Hok.
Qed.

Lemma pending_cmd : forall s key t p,
  handle_pending ua s key t = Some p -> cmd_ok s ->
  match p with Finished s' _ | FallThrough s' => cmd_ok s' end.
Proof.
  intros s key t p H Hok.
  unfold handle_pending, finish in H.
  destruct (current_operation s), key;
  unfold word_operator, delete_line, yank_line, inner_word_operator, change_line in H;
  inv_some;
  repeat match goal with
  | E : option_map _ ?m = Some _ |- _ =>
      let E' := fresh "E" in
      first [ destruct m as [[? ?]|] eqn:E' | destruct m as [?|] eqn:E' ];
      simpl in E; inv_some
  end;
  cmd_done Hok.
Qed.

Lemma insert_key_cmd : forall s key t m s' t' o,
  handle_insert_mode_key s key t m = Some (s', t', o) ->
  s.(vim_mode) = VimMode.Insert -> cmd_ok s'.
Proof.
  intros s key t m s' t' o H Hm.
  unfold handle_insert_mode_key in H; destruct key;
  unfold handled, handled_edit, unhandled, insert_escape, insert_enter, insert_backspace,
    key_x, move_left, move_right, move_up, move_down in H;
  unfold move_vertical, move_horizontal, move_to in H;
  inv_some; unfold cmd_ok; simpl; rewrite ?Hm; intros ?; discriminate.
Qed.

Lemma pop_colon : forall r, 1 < byte_len (str ":" ++ r) ->
  pop (str ":" ++ r) = str ":" ++ removelast r.
Proof.
  intros [|c r] H; [simpl in H; lia|]. reflexivity.
Qed.

Lemma command_key_cmd : forall s key t m s' t' o,
  handle_command_mode_key s key t m = Some (s', t', o) -> cmd_ok s -> cmd_ok s'.
Proof.
  intros s key t m s' t' o H Hok.
  unfold handle_command_mode_key in H; destruct key; inv_some; try cmd_done Hok.
  unfold cmd_ok in *; simpl. intros Hm. destruct (Hok Hm) as [r Hr].
  rewrite Hr in *. exists (removelast r). apply pop_colon.
  apply Nat.ltb_lt; assumption.
Qed.

Lemma text_input_cmd : forall s c t s' t',
  handle_text_input s c t = Some (s', t') -> cmd_ok s -> cmd_ok s'.
Proof.
  intros s c t s' t' H Hok.
  unfold handle_text_input, move_to in H; inv_some; try cmd_done Hok.
  unfold cmd_ok in *; simpl. intros Hm. destruct (Hok Hm) as [r Hr].
  rewrite Hr. exists (r ++ [c]). rewrite <- app_assoc. reflexivity.
Qed.

Lemma step_cmd : forall s t ev s' t',
  step ua s t ev = Some (s', t') -> cmd_ok s -> cmd_ok s'.
Proof.
  intros s t ev s' t' H Hok.
  destruct ev as [key m | c]; simpl in H.
  - destruct (handle_key_press ua s key t m) as [[[s1 t1] o]|] eqn:Ek;
      simpl in H; [|discriminate].
    injection H as <- <-.
    unfold handle_key_press in Ek. destruct (vim_mode s) eqn:Em.
    + unfold handle_normal_mode_key in Ek.
      destruct (VimOperation.eqb (current_operation s) VimOperation.None).
      * simpl in Ek. eapply normal_key_cmd; eauto.
      * destruct (handle_pending ua s key t) as [p|] eqn:Ep; simpl in Ek; [|discriminate].
        apply pending_cmd in Ep; [|assumption]. destruct p as [s2 t2 | s2].
        -- injection Ek as <- <- <-. assumption.
        -- eapply normal_key_cmd; eassumption.
    + eapply insert_key_cmd; eauto.
    + eapply command_key_cmd; eauto.
  - eapply text_input_cmd; eauto.
Qed.

Lemma run_cmd : forall evs s t s' t',
  run ua s t evs = Some (s', t') -> cmd_ok s -> cmd_ok s'.
Proof.
  induction evs as [|ev evs IH]; intros s t s' t' H Hok; simpl in H.
  - injection H as <- <-; assumption.
  - destruct (step ua s t ev) as [[s1 t1]|] eqn:E; simpl in H; [|discriminate].
    eapply IH; [exact H|]. eapply step_cmd; eauto.
Qed.

(** X2: After any run from [SimpleEditor::new], the editor is in Command
    mode exactly when the mode indicator starts with a colon. *)
Theorem mode_display_identifies_mode : forall t evs s' t',
  run ua new t evs = Some (s', t') ->
  (s'.(vim_mode) = VimMode.Command <-> exists r, get_mode_display s' = str ":" ++ r).
Proof.
  intros t evs s' t' H.
  assert (Hok : cmd_ok s') by (eapply run_cmd; [exact H | intros Hc; discriminate]).
  unfold get_mode_display. split.
  - intros Hm. rewrite Hm. apply Hok, Hm.
  - destruct (vim_mode s'); [|intros [r Hr]; discriminate Hr | intros _; reflexivity].
    destruct (VimOperation.eqb _ _); [intros [r Hr]; discriminate Hr|].
    destruct (current_operation s'); intros [r Hr]; discriminate Hr.
Qed.
End Cmd.

Lemma len_utf8_ascii : forall c, (c < 128)%N -> len_utf8 c = 1.
Proof. intros c H. unfold len_utf8. apply N.ltb_lt in H. rewrite H. reflexivity. Qed.

Lemma boundary_app : forall p r, is_char_boundary (p ++ r) (byte_len p) = true.
Proof. intros p r. unfold is_char_boundary. rewrite char_index_app. reflexivity. Qed.

Lemma remove_app : forall p c r, remove (p ++ c :: r) (byte_len p) = Some (p ++ r).
Proof.
  intros p c r. unfold remove. rewrite char_index_app. simpl.
  rewrite skipn_length_app, firstn_length_app. reflexivity.
Qed.

Lemma replace_range_mid : forall p q r s,
  replace_range (p ++ q ++ r) (byte_len p) (byte_len p + byte_len q) s = Some (p ++ s ++ r).
Proof.
  intros p q r s. unfold replace_range. rewrite char_index_app. simpl.
  rewrite app_assoc, <- byte_len_app, char_index_app. simpl.
  rewrite (proj2 (Nat.leb_le _ _)) by (rewrite byte_len_app; lia).
  rewrite skipn_length_app, <- app_assoc, firstn_length_app.
  reflexivity.
Qed.

(** [update_cursor_line_column] at a boundary succeeds and only writes the
    line and column. *)
Lemma update_at : forall s p r,
  s.(cursor_position) = byte_len p ->
  exists l c, update_cursor_line_column s (p ++ r) = Some (set_line_column s l c).
Proof.
  intros s p r H. destruct (update_total s (p ++ r)) as [s' Hs'].
  { left. rewrite H. apply boundary_app. }
  pose proof Hs' as Hf. apply update_frame in Hf as (l & c & ->). eauto.
Qed.

Section Edits.
Variable ua : char -> bool.

(** X3: In Command mode with a nonempty buffer, typing a printable character
    then Backspace leaves the state and the document as they were. *)
Theorem command_type_then_backspace : forall s t c,
  s.(vim_mode) = VimMode.Command -> s.(command_buffer) <> [] -> (32 <= c)%N ->
  run ua s t [TextInput c; press Key.Backspace] = Some (s, t).
Proof.
  intros [cur line col des mode cmd op reg] t c Hm Hne Hc; simpl in *; subst.
  unfold run, step, handle_text_input. simpl vim_mode.
  rewrite (proj2 (N.leb_le _ _) Hc). simpl obind.
  unfold handle_key_press, handle_command_mode_key. simpl.
  rewrite (proj2 (Nat.ltb_lt _ _)).
  - unfold pop. rewrite removelast_last. reflexivity.
  - rewrite byte_len_app. destruct cmd as [|x cmd]; [contradiction|].
    simpl. pose proof (len_utf8_pos x). pose proof (len_utf8_pos c). lia.
Qed.

(** X4: In Insert mode, an accepted ASCII character is inserted at the
    cursor and the cursor moves past it; Backspace then removes it and
    restores the cursor offset, staying in Insert mode. *)
Theorem insert_type_then_backspace : forall s p r c,
  s.(vim_mode) = VimMode.Insert -> s.(cursor_position) = byte_len p ->
  (c < 128)%N -> ((32 <= c)%N \/ c = nl \/ c = 9%N) ->
  exists s1 s2,
    step ua s (p ++ r) (TextInput c) = Some (s1, p ++ c :: r)
    /\ s1.(cursor_position) = byte_len p + 1
    /\ step ua s1 (p ++ c :: r) (press Key.Backspace) = Some (s2, p ++ r)
    /\ s2.(cursor_position) = byte_len p
    /\ s2.(vim_mode) = VimMode.Insert.
Proof.
  intros s p r c Hm Hcur Hasc Hpr.
  assert (Hg : ((32 <=? c)%N || (c =? 10)%N || (c =? 9)%N) = true).
  { destruct Hpr as [H|[H|H]]; [apply N.leb_le in H; rewrite H; reflexivity| |];
    subst; rewrite ?orb_true_r; reflexivity. }
  assert (Hins : insert (p ++ r) (byte_len p) c = Some (p ++ c :: r))
    by (unfold insert; apply insert_str_app).
  destruct (update_at (set_cursor_position s (cursor_position s + 1)) (p ++ [c]) r)
    as (l1 & c1 & Hu1).
  { simpl. rewrite byte_len_app, Hcur. simpl. rewrite len_utf8_ascii by assumption. lia. }
  rewrite <- app_assoc in Hu1. simpl in Hu1.
  set (s1 := set_line_column (set_cursor_position s (cursor_position s + 1)) l1 c1) in Hu1.
  destruct (update_at (set_cursor_position s1 (cursor_position s1 - 1)) p r)
    as (l2 & c2 & Hu2).
  { simpl. lia. }
  exists s1, (set_line_column (set_cursor_position s1 (cursor_position s1 - 1)) l2 c2).
  split; [|split; [unfold s1; simpl; lia|split; [|split; [unfold s1; simpl; lia | unfold s1; simpl; exact Hm]]]].
  - unfold step, handle_text_input. rewrite Hm, Hg.
    rewrite (proj2 (Nat.leb_le _ _)) by (rewrite Hcur, byte_len_app; lia).
    rewrite Hcur, Hins. simpl obind. unfold move_to. rewrite <- Hcur, Hu1. reflexivity.
  - unfold press. rewrite step_key. unfold handle_key_press.
    replace (vim_mode s1) with VimMode.Insert by (simpl; rewrite Hm; reflexivity).
    unfold handle_insert_mode_key, handled_edit, insert_backspace.
    rewrite (proj2 (Nat.ltb_lt _ _)) by (simpl; lia).
    replace (cursor_position s1 - 1) with (byte_len p) by (simpl; lia).
    rewrite remove_app. simpl obind. unfold move_to.
    replace (byte_len p) with (cursor_position s1 - 1) by (simpl; lia).
    rewrite Hu2. reflexivity.
Qed.

(** X5: In Insert mode, Enter behaves as typing a line terminator through
    [handle_text_input]. *)
Theorem enter_is_newline_input : forall s t m,
  s.(vim_mode) = VimMode.Insert ->
  step ua s t (KeyPress Key.Enter m) = handle_text_input s nl t.
Proof.
  intros s t m Hm. unfold step, handle_key_press, handle_text_input. rewrite Hm.
  unfold handle_insert_mode_key, handled_edit, insert_enter. simpl.
  destruct (cursor_position s <=? byte_len t); [|reflexivity].
  destruct (insert t (cursor_position s) nl); [|reflexivity]. simpl.
  destruct (move_to s l (cursor_position s + 1)); reflexivity.
Qed.

(** X6: x in Normal mode with no pending operator, and Delete in Insert
    mode, remove the character under the cursor and keep the cursor offset,
    the mode and the register. *)
Theorem delete_char_under_cursor : forall s key p c r,
  (s.(vim_mode) = VimMode.Normal /\ s.(current_operation) = VimOperation.None /\ key = Key.X)
  \/ (s.(vim_mode) = VimMode.Insert /\ key = Key.Delete) ->
  s.(cursor_position) = byte_len p ->
  exists s', step ua s (p ++ c :: r) (press key) = Some (s', p ++ r)
             /\ s'.(cursor_position) = byte_len p
             /\ s'.(vim_mode) = s.(vim_mode)
             /\ s'.(register_buffer) = s.(register_buffer).
Proof.
  intros s key p c r Hk Hcur.
  destruct (update_at s p r Hcur) as (l & col & Hu).
  assert (Hkx : key_x s (p ++ c :: r) = Some (set_line_column s l col, p ++ r)).
  { unfold key_x. rewrite (proj2 (Nat.ltb_lt _ _)).
    - rewrite Hcur, remove_app. simpl obind. rewrite Hu. reflexivity.
    - rewrite Hcur, byte_len_app. simpl. pose proof (len_utf8_pos c). lia. }
  exists (set_line_column s l col). split; [|simpl; auto].
  unfold press. rewrite step_key. unfold handle_key_press.
  destruct Hk as [(Hm & Ho & ->) | (Hm & ->)]; rewrite Hm.
  - unfold handle_normal_mode_key. rewrite Ho. simpl obind.
    unfold normal_key, handled_edit. rewrite Hkx. reflexivity.
  - unfold handle_insert_mode_key, handled_edit. rewrite Hkx. reflexivity.
Qed.
End Edits.


Lemma line_end_mid : forall p l2 rest, ~ In nl l2 -> line_suffix rest ->
  line_end (p ++ l2 ++ rest) (byte_len p) = Some (byte_len p + byte_len l2).
Proof.
  intros p l2 rest H Hr. unfold line_end. rewrite slice_from_app. simpl.
  rewrite find_char_app_notin by assumption.
  destruct Hr as [-> | [post ->]]; simpl.
  - rewrite app_nil_r, byte_len_app. reflexivity.
  - f_equal; lia.
Qed.

Lemma line_start_at : forall pre r, line_prefix pre ->
  line_start (pre ++ r) (byte_len pre) = Some (byte_len pre).
Proof.
  intros pre r Hpre. pose proof (line_start_mid pre [] r Hpre (fun H => H)) as H.
  rewrite app_nil_r in H. exact H.
Qed.

Lemma filter_count : forall (l : text) c,
  List.length (filter (N.eqb c) l) = count_occ N.eq_dec l c.
Proof.
  induction l as [|x l IH]; intros c; simpl; [reflexivity|].
  destruct (N.eq_dec x c) as [->|Hne]; rewrite ?N.eqb_refl; simpl; rewrite ?IH; [reflexivity|].
  destruct (c =? x)%N eqn:E; [apply N.eqb_eq in E; congruence | apply IH].
Qed.

Lemma line_column_at : forall s pre x r,
  line_prefix pre -> ~ In nl x -> s.(cursor_position) = byte_len (pre ++ x) ->
  update_cursor_line_column s (pre ++ x ++ r)
  = Some (set_line_column s (count_occ N.eq_dec pre nl) (byte_len x)).
Proof.
  intros s pre x r Hpre Hx Hc. unfold update_cursor_line_column.
  rewrite (proj2 (Nat.leb_le _ _)) by (rewrite Hc, app_assoc, (byte_len_app (pre ++ x)); lia).
  rewrite app_assoc, Hc, (slice_to_boundary _ _ _ (char_index_app _ _)), firstn_length_app.
  simpl obind. rewrite filter_app, length_app, !filter_count.
  rewrite (proj1 (count_occ_not_In N.eq_dec x nl) Hx), Nat.add_0_r.
  rewrite rfind_char_app, rfind_char_notin by assumption.
  destruct Hpre as [-> | [pre' ->]].
  - simpl. do 2 f_equal. lia.
  - rewrite rfind_char_app. simpl. rewrite !byte_len_app. simpl. do 2 f_equal. lia.
Qed.

(** X7: [update_cursor_line_column] with the cursor in the line [x] after
    [pre] sets the line to the number of terminators in [pre] and the
    column to the byte length of [x]. *)
Theorem line_and_column_of_offset : forall s pre x r,
  line_prefix pre -> ~ In nl x -> s.(cursor_position) = byte_len (pre ++ x) ->
  update_cursor_line_column s (pre ++ x ++ r)
  = Some (set_line_column s (count_occ N.eq_dec pre nl) (byte_len x)).
Proof.
  intros s pre x r Hpre Hx Hc. exact (line_column_at s pre x r Hpre Hx Hc).
Qed.

Section Lines.
Variable ua : char -> bool.

Lemma normal_step : forall s t k m,
  s.(vim_mode) = VimMode.Normal -> s.(current_operation) = VimOperation.None ->
  step ua s t (KeyPress k m)
  = (let? o := normal_key s k t m in let '(s', t', _) := o in Some (s', t')).
Proof.
  intros s t k m Hm Ho. unfold step, handle_key_press. rewrite Hm.
  unfold handle_normal_mode_key. rewrite Ho. reflexivity.
Qed.

Lemma pending_step : forall s t k m op,
  s.(vim_mode) = VimMode.Normal -> s.(current_operation) = op -> op <> VimOperation.None ->
  step ua s t (KeyPress k m)
  = (let? p := handle_pending ua s k t in
     match p with
     | Finished s' t' => Some (s', t')
     | FallThrough s' => let? o := normal_key s' k t m in let '(s', t', _) := o in Some (s', t')
     end).
Proof.
  intros s t k m op Hm Ho Hne. unfold step, handle_key_press. rewrite Hm.
  unfold handle_normal_mode_key. rewrite Ho.
  destruct op; [contradiction| | |]; simpl;
  destruct (handle_pending ua s k t) as [[|]|]; reflexivity.
Qed.

Lemma contains_nl : forall a b, contains (a ++ b ++ [nl]) nl = true.
Proof.
  intros a b. unfold contains. apply existsb_exists. exists nl.
  split; [|apply N.eqb_refl]. apply in_or_app; right; apply in_or_app; right; left; reflexivity.
Qed.

Lemma not_empty_nl : forall a b, is_empty (a ++ b ++ [nl]) = false.
Proof. intros [|x a] [|y b]; reflexivity. Qed.

(** [d d] on a line that has a terminator and is followed by more text
    removes the line with its terminator and yanks it. *)
Lemma dd_terminated_line : forall s pre l1 l2 post,
  s.(vim_mode) = VimMode.Normal -> s.(current_operation) = VimOperation.None ->
  line_prefix pre -> ~ In nl (l1 ++ l2) ->
  s.(cursor_position) = byte_len (pre ++ l1) -> post <> [] ->
  exists s1,
    run ua s (pre ++ l1 ++ l2 ++ nl :: post) [press Key.D; press Key.D] = Some (s1, pre ++ post)
    /\ s1.(register_buffer) = l1 ++ l2 ++ [nl]
    /\ s1.(cursor_position) = byte_len pre
    /\ s1.(vim_mode) = VimMode.Normal /\ s1.(current_operation) = VimOperation.None.
Proof.
  intros s pre l1 l2 post Hm Ho Hpre Hnl Hc Hpost.
  assert (Hnl1 : ~ In nl l1) by (intro; apply Hnl, in_or_app; left; assumption).
  assert (Hnl2 : ~ In nl l2) by (intro; apply Hnl, in_or_app; right; assumption).
  set (reg := l1 ++ l2 ++ [nl]).
  assert (Ht : pre ++ l1 ++ l2 ++ nl :: post = pre ++ reg ++ post)
    by (unfold reg; rewrite <- !app_assoc; reflexivity).
  assert (Hls : line_start (pre ++ reg ++ post) (cursor_position s) = Some (byte_len pre)).
  { rewrite <- Ht, Hc. apply line_start_mid; assumption. }
  assert (Hle : line_end_incl (pre ++ reg ++ post) (cursor_position s)
                = Some (byte_len pre + byte_len reg)).
  { rewrite <- Ht, Hc, app_assoc, line_end_incl_mid by assumption.
    unfold reg. rewrite !byte_len_app. simpl. f_equal. lia. }
  assert (Hlen : byte_len (pre ++ reg ++ post) = byte_len pre + byte_len reg + byte_len post)
    by (rewrite !byte_len_app; lia).
  assert (Hpl : 0 < byte_len post).
  { destruct post as [|x post]; [contradiction|]. simpl. pose proof (len_utf8_pos x). lia. }
  assert (Hrl : 0 < byte_len reg) by (unfold reg; rewrite !byte_len_app; simpl; lia).
  set (s0 := set_current_operation s VimOperation.Delete).
  set (s1 := set_cursor_position (set_register_buffer s0 reg) (byte_len pre)).
  destruct (update_at s1 pre post eq_refl) as (l & c & Hu).
  exists (set_current_operation (set_line_column s1 l c) VimOperation.None).
  split; [|unfold s1, s0; simpl; auto].
  rewrite Ht. unfold press.
  rewrite run_cons, (normal_step _ _ _ _ Hm Ho). cbn [obind normal_key handled].
  rewrite run_cons, (pending_step s0 _ _ _ VimOperation.Delete) by first [exact Hm | reflexivity | discriminate].
  unfold handle_pending, finish, delete_line. cbn [current_operation s0 set_current_operation].
  change (cursor_position s0) with (cursor_position s).
  rewrite Hls, Hle. cbn [obind].
  rewrite (proj2 (Nat.ltb_lt 0 _)) by lia. rewrite Hlen.
  rewrite (proj2 (Nat.ltb_lt _ (byte_len pre + byte_len reg + byte_len post))) by lia.
  cbn [andb]. rewrite slice_mid, replace_range_mid. cbn [obind app].
  rewrite (proj2 (Nat.ltb_ge _ _)) by (rewrite byte_len_app; lia).
  fold s1. rewrite Hu. reflexivity.
Qed.

Lemma run_app : forall a b s t,
  run ua s t (a ++ b) = (let? st := run ua s t a in let '(s', t') := st in run ua s' t' b).
Proof.
  induction a as [|ev a IH]; intros b s t; [reflexivity|].
  simpl. destruct (step ua s t ev) as [[s1 t1]|]; simpl; [apply IH | reflexivity].
Qed.

(** [P] with a register holding a terminator inserts it at the start of
    the cursor's line. *)
Lemma paste_above : forall s pre x r,
  s.(vim_mode) = VimMode.Normal -> s.(current_operation) = VimOperation.None ->
  line_prefix pre -> ~ In nl x -> s.(cursor_position) = byte_len (pre ++ x) ->
  is_empty s.(register_buffer) = false -> contains s.(register_buffer) nl = true ->
  exists s2,
    step ua s (pre ++ x ++ r) (KeyPress Key.P shift_mods)
      = Some (s2, pre ++ s.(register_buffer) ++ x ++ r)
    /\ s2.(cursor_position) = byte_len pre + byte_len s.(register_buffer)
    /\ s2.(register_buffer) = s.(register_buffer).
Proof.
  intros s pre x r Hm Ho Hpre Hx Hc Hne Hcont.
  set (reg := register_buffer s) in *.
  destruct (update_at (set_cursor_position s (byte_len pre + byte_len reg)) (pre ++ reg) (x ++ r))
    as (l & c & Hu).
  { simpl. rewrite byte_len_app. reflexivity. }
  rewrite <- app_assoc in Hu.
  exists (set_line_column (set_cursor_position s (byte_len pre + byte_len reg)) l c).
  split; [|split; reflexivity].
  rewrite (normal_step _ _ _ _ Hm Ho). unfold normal_key, handled_edit, paste.
  cbn [shift shift_mods]. fold reg. rewrite Hne, Hcont. cbn [negb].
  rewrite Hc, line_start_mid by assumption. cbn [obind].
  rewrite insert_str_app. cbn [obind]. rewrite Hu. reflexivity.
Qed.

(** [p] with a register holding a terminator inserts it after the
    terminator of the cursor's line. *)
Lemma paste_below : forall s p l2 post,
  s.(vim_mode) = VimMode.Normal -> s.(current_operation) = VimOperation.None ->
  ~ In nl l2 -> s.(cursor_position) = byte_len p ->
  is_empty s.(register_buffer) = false -> contains s.(register_buffer) nl = true ->
  exists s2,
    step ua s (p ++ l2 ++ nl :: post) (press Key.P)
      = Some (s2, p ++ l2 ++ nl :: s.(register_buffer) ++ post)
    /\ s2.(cursor_position) = byte_len p + byte_len l2 + 1 + byte_len s.(register_buffer)
    /\ s2.(register_buffer) = s.(register_buffer).
Proof.
  intros s p l2 post Hm Ho Hx Hc Hne Hcont.
  set (reg := register_buffer s) in *.
  set (q := p ++ l2 ++ [nl]).
  assert (Hq : byte_len q = byte_len p + byte_len l2 + 1)
    by (unfold q; rewrite !byte_len_app; cbn [byte_len]; rewrite len_utf8_nl; lia).
  assert (Ht : p ++ l2 ++ nl :: post = q ++ post) by (unfold q; rewrite <- !app_assoc; reflexivity).
  assert (Ht' : p ++ l2 ++ nl :: reg ++ post = q ++ reg ++ post)
    by (unfold q; rewrite <- !app_assoc; reflexivity).
  destruct (update_at (set_cursor_position s (byte_len q + byte_len reg)) (q ++ reg) post)
    as (l & c & Hu).
  { simpl. rewrite byte_len_app. reflexivity. }
  rewrite <- app_assoc in Hu.
  exists (set_line_column (set_cursor_position s (byte_len q + byte_len reg)) l c).
  split; [|split; [simpl; lia | reflexivity]].
  unfold press. rewrite (normal_step _ _ _ _ Hm Ho). unfold normal_key, handled_edit, paste.
  cbn [shift no_mods]. fold reg. rewrite Hne, Hcont. cbn [negb].
  rewrite Hc, line_end_incl_mid by assumption. cbn [obind].
  rewrite <- Hq, Ht, insert_str_app. cbn [obind]. rewrite Hu, Ht'. reflexivity.
Qed.

(** X8: dd on a terminated line that has a line after it removes the line; P
    then puts it back above, with the cursor at the start of the following
    line. *)
Theorem dd_then_P_restores_line : forall s pre l1 l2 post,
  s.(vim_mode) = VimMode.Normal -> s.(current_operation) = VimOperation.None ->
  line_prefix pre -> ~ In nl (l1 ++ l2) ->
  s.(cursor_position) = byte_len (pre ++ l1) -> post <> [] ->
  exists s1 s2,
    run ua s (pre ++ l1 ++ l2 ++ nl :: post) [press Key.D; press Key.D] = Some (s1, pre ++ post)
    /\ step ua s1 (pre ++ post) (KeyPress Key.P shift_mods)
         = Some (s2, pre ++ l1 ++ l2 ++ nl :: post)
    /\ s2.(cursor_position) = byte_len (pre ++ l1 ++ l2) + 1.
Proof.
  intros s pre l1 l2 post Hm Ho Hpre Hnl Hc Hpost.
  destruct (dd_terminated_line s pre l1 l2 post Hm Ho Hpre Hnl Hc Hpost)
    as (s1 & Hrun & Hreg & Hcur & Hm1 & Ho1).
  destruct (paste_above s1 pre [] post Hm1 Ho1 Hpre (fun H => H))
    as (s2 & Hst & Hc2 & _).
  { rewrite app_nil_r; exact Hcur. }
  { rewrite Hreg; apply not_empty_nl. }
  { rewrite Hreg; apply contains_nl. }
  exists s1, s2. split; [exact Hrun|]. split.
  - simpl app in Hst. rewrite Hst, Hreg, <- !app_assoc. reflexivity.
  - rewrite Hc2, Hreg, !byte_len_app. simpl. lia.
Qed.

(** X9: dd then p on a terminated line followed by another terminated line
    swaps the two lines. *)
Theorem dd_then_p_swaps_lines : forall s pre l1 l2 m post,
  s.(vim_mode) = VimMode.Normal -> s.(current_operation) = VimOperation.None ->
  line_prefix pre -> ~ In nl (l1 ++ l2) -> ~ In nl m ->
  s.(cursor_position) = byte_len (pre ++ l1) ->
  exists s2,
    run ua s (pre ++ l1 ++ l2 ++ nl :: m ++ nl :: post) [press Key.D; press Key.D; press Key.P]
      = Some (s2, pre ++ m ++ nl :: l1 ++ l2 ++ nl :: post).
Proof.
  intros s pre l1 l2 m post Hm Ho Hpre Hnl Hnm Hc.
  destruct (dd_terminated_line s pre l1 l2 (m ++ nl :: post) Hm Ho Hpre Hnl Hc)
    as (s1 & Hrun & Hreg & Hcur & Hm1 & Ho1).
  { destruct m; discriminate. }
  destruct (paste_below s1 pre m post Hm1 Ho1 Hnm Hcur)
    as (s2 & Hst & _ & _).
  { rewrite Hreg; apply not_empty_nl. }
  { rewrite Hreg; apply contains_nl. }
  exists s2.
  change [press Key.D; press Key.D; press Key.P] with ([press Key.D; press Key.D] ++ [press Key.P]).
  rewrite run_app, Hrun. cbn [obind]. rewrite run_cons, Hst. cbn [obind run].
  rewrite Hreg, <- !app_assoc. reflexivity.
Qed.

(** [y y] on a line that has a terminator yanks the line with it. *)
Lemma yy_terminated_line : forall s pre l1 l2 post,
  s.(vim_mode) = VimMode.Normal -> s.(current_operation) = VimOperation.None ->
  line_prefix pre -> ~ In nl (l1 ++ l2) -> s.(cursor_position) = byte_len (pre ++ l1) ->
  exists s1,
    run ua s (pre ++ l1 ++ l2 ++ nl :: post) [press Key.Y; press Key.Y]
      = Some (s1, pre ++ l1 ++ l2 ++ nl :: post)
    /\ s1.(register_buffer) = l1 ++ l2 ++ [nl]
    /\ s1.(cursor_position) = s.(cursor_position)
    /\ s1.(vim_mode) = VimMode.Normal /\ s1.(current_operation) = VimOperation.None.
Proof.
  intros s pre l1 l2 post Hm Ho Hpre Hnl Hc.
  assert (Hnl2 : ~ In nl l2) by (intro; apply Hnl, in_or_app; right; assumption).
  set (reg := l1 ++ l2 ++ [nl]).
  assert (Ht : pre ++ l1 ++ l2 ++ nl :: post = pre ++ reg ++ post)
    by (unfold reg; rewrite <- !app_assoc; reflexivity).
  assert (Hls : line_start (pre ++ reg ++ post) (cursor_position s) = Some (byte_len pre)).
  { rewrite <- Ht, Hc. apply line_start_mid; [assumption|].
    intro; apply Hnl, in_or_app; left; assumption. }
  assert (Hle : line_end_incl (pre ++ reg ++ post) (cursor_position s)
                = Some (byte_len pre + byte_len reg)).
  { rewrite <- Ht, Hc, app_assoc, line_end_incl_mid by assumption.
    unfold reg. rewrite !byte_len_app. simpl. f_equal. lia. }
  set (s0 := set_current_operation s VimOperation.Yank).
  exists (set_current_operation (set_register_buffer s0 reg) VimOperation.None).
  split; [|unfold s0; simpl; auto].
  rewrite Ht. unfold press.
  rewrite run_cons, (normal_step _ _ _ _ Hm Ho). cbn [obind normal_key handled].
  rewrite run_cons, (pending_step s0 _ _ _ VimOperation.Yank) by first [exact Hm | reflexivity | discriminate].
  unfold handle_pending, finish, yank_line. cbn [current_operation s0 set_current_operation].
  change (cursor_position s0) with (cursor_position s).
  rewrite Hls, Hle. cbn [obind]. rewrite slice_mid. reflexivity.
Qed.

(** X10: yy then P duplicates a terminated line above itself; the register
    holds the line with its terminator. *)
Theorem yy_then_P_duplicates_above : forall s pre l1 l2 post,
  s.(vim_mode) = VimMode.Normal -> s.(current_operation) = VimOperation.None ->
  line_prefix pre -> ~ In nl (l1 ++ l2) -> s.(cursor_position) = byte_len (pre ++ l1) ->
  exists s2,
    run ua s (pre ++ l1 ++ l2 ++ nl :: post) [press Key.Y; press Key.Y; KeyPress Key.P shift_mods]
      = Some (s2, pre ++ l1 ++ l2 ++ nl :: l1 ++ l2 ++ nl :: post)
    /\ s2.(cursor_position) = byte_len (pre ++ l1 ++ l2) + 1
    /\ s2.(register_buffer) = l1 ++ l2 ++ [nl].
Proof.
  intros s pre l1 l2 post Hm Ho Hpre Hnl Hc.
  destruct (yy_terminated_line s pre l1 l2 post Hm Ho Hpre Hnl Hc)
    as (s1 & Hrun & Hreg & Hcur & Hm1 & Ho1).
  assert (Hnl1 : ~ In nl l1) by (intro; apply Hnl, in_or_app; left; assumption).
  destruct (paste_above s1 pre l1 (l2 ++ nl :: post) Hm1 Ho1 Hpre Hnl1)
    as (s2 & Hst & Hc2 & Hr2).
  { rewrite Hcur; exact Hc. }
  { rewrite Hreg; apply not_empty_nl. }
  { rewrite Hreg; apply contains_nl. }
  exists s2. split; [|split].
  - change [press Key.Y; press Key.Y; KeyPress Key.P shift_mods]
      with ([press Key.Y; press Key.Y] ++ [KeyPress Key.P shift_mods]).
    rewrite run_app, Hrun. cbn [obind]. rewrite run_cons, Hst. cbn [obind run].
    rewrite Hreg, <- !app_assoc. reflexivity.
  - rewrite Hc2, Hreg, !byte_len_app. cbn [byte_len]. rewrite len_utf8_nl. lia.
  - rewrite Hr2; exact Hreg.
Qed.

(** X11: o opens an empty line below the cursor line and O an empty line
    above it; both put the cursor on the new line and enter Insert mode. *)
Theorem open_line_below_above : forall s pre l1 l2 rest,
  s.(vim_mode) = VimMode.Normal -> s.(current_operation) = VimOperation.None ->
  line_prefix pre -> ~ In nl (l1 ++ l2) -> line_suffix rest ->
  s.(cursor_position) = byte_len (pre ++ l1) ->
  (exists s', step ua s (pre ++ l1 ++ l2 ++ rest) (press Key.O)
                = Some (s', pre ++ l1 ++ l2 ++ nl :: rest)
              /\ s'.(cursor_position) = byte_len (pre ++ l1 ++ l2) + 1
              /\ s'.(vim_mode) = VimMode.Insert)
  /\ (exists s', step ua s (pre ++ l1 ++ l2 ++ rest) (KeyPress Key.O shift_mods)
                   = Some (s', pre ++ nl :: l1 ++ l2 ++ rest)
                 /\ s'.(cursor_position) = byte_len pre
                 /\ s'.(vim_mode) = VimMode.Insert).
Proof.
  intros s pre l1 l2 rest Hm Ho Hpre Hnl Hr Hc.
  assert (Hnl1 : ~ In nl l1) by (intro; apply Hnl, in_or_app; left; assumption).
  assert (Hnl2 : ~ In nl l2) by (intro; apply Hnl, in_or_app; right; assumption).
  split.
  - set (le := byte_len (pre ++ l1 ++ l2)).
    destruct (update_at (set_cursor_position s (le + 1)) (pre ++ l1 ++ l2 ++ [nl]) rest)
      as (l & c & Hu).
    { simpl. unfold le. rewrite !byte_len_app. cbn [byte_len]. rewrite len_utf8_nl. lia. }
    exists (set_vim_mode (set_line_column (set_cursor_position s (le + 1)) l c) VimMode.Insert).
    split; [|split; reflexivity].
    unfold press. rewrite (normal_step _ _ _ _ Hm Ho). unfold normal_key, handled_edit, key_o.
    cbn [shift no_mods].
    rewrite Hc, app_assoc, line_end_mid by assumption. cbn [obind].
    replace (byte_len (pre ++ l1) + byte_len l2) with (byte_len ((pre ++ l1) ++ l2))
      by (rewrite byte_len_app; reflexivity).
    unfold insert. rewrite app_assoc, insert_str_app. cbn [obind].
    replace (byte_len ((pre ++ l1) ++ l2)) with le by (unfold le; rewrite <- !app_assoc; reflexivity).
    rewrite <- !app_assoc in Hu. simpl in Hu. rewrite <- !app_assoc. simpl. rewrite Hu.
    reflexivity.
  - destruct (update_at (set_cursor_position s (byte_len pre)) pre (nl :: l1 ++ l2 ++ rest))
      as (l & c & Hu); [reflexivity|].
    exists (set_vim_mode (set_line_column (set_cursor_position s (byte_len pre)) l c) VimMode.Insert).
    split; [|split; reflexivity].
    rewrite (normal_step _ _ _ _ Hm Ho). unfold normal_key, handled_edit, key_o.
    cbn [shift shift_mods].
    rewrite Hc, line_start_mid by assumption. cbn [obind].
    unfold insert. rewrite insert_str_app. cbn [obind]. simpl app. rewrite Hu. reflexivity.
Qed.

(** X12: cc empties the cursor line (keeping its terminator), stores its
    content in the register, puts the cursor at the line start, enters
    Insert mode and ends the operator. *)
Theorem cc_clears_line_into_register : forall s pre l1 l2 rest,
  s.(vim_mode) = VimMode.Normal -> s.(current_operation) = VimOperation.None ->
  line_prefix pre -> ~ In nl (l1 ++ l2) -> line_suffix rest ->
  s.(cursor_position) = byte_len (pre ++ l1) ->
  exists s',
    run ua s (pre ++ l1 ++ l2 ++ rest) [press Key.C; press Key.C] = Some (s', pre ++ rest)
    /\ s'.(register_buffer) = l1 ++ l2
    /\ s'.(cursor_position) = byte_len pre
    /\ s'.(vim_mode) = VimMode.Insert
    /\ s'.(current_operation) = VimOperation.None.
Proof.
  intros s pre l1 l2 rest Hm Ho Hpre Hnl Hr Hc.
  assert (Hnl1 : ~ In nl l1) by (intro; apply Hnl, in_or_app; left; assumption).
  assert (Hnl2 : ~ In nl l2) by (intro; apply Hnl, in_or_app; right; assumption).
  set (s0 := set_current_operation s VimOperation.Change).
  set (s1 := set_cursor_position (set_register_buffer s0 (l1 ++ l2)) (byte_len pre)).
  destruct (update_at s1 pre rest eq_refl) as (l & c & Hu).
  exists (set_current_operation (set_vim_mode (set_line_column s1 l c) VimMode.Insert)
            VimOperation.None).
  split; [|unfold s1, s0; simpl; auto].
  unfold press.
  rewrite run_cons, (normal_step _ _ _ _ Hm Ho). cbn [obind normal_key handled].
  rewrite run_cons, (pending_step s0 _ _ _ VimOperation.Change) by first [exact Hm | reflexivity | discriminate].
  unfold handle_pending, finish, change_line. cbn [current_operation s0 set_current_operation].
  change (cursor_position s0) with (cursor_position s).
  rewrite Hc, line_start_mid by assumption. cbn [obind].
  rewrite app_assoc, line_end_mid by assumption. cbn [obind]. rewrite <- app_assoc.
  replace (byte_len (pre ++ l1) + byte_len l2) with (byte_len pre + byte_len (l1 ++ l2))
    by (rewrite !byte_len_app; lia).
  replace (pre ++ l1 ++ l2 ++ rest) with (pre ++ (l1 ++ l2) ++ rest)
    by (rewrite <- !app_assoc; reflexivity).
  rewrite slice_mid, replace_range_mid. cbn [obind app].
  fold s0 s1. rewrite Hu. reflexivity.
Qed.

(** X13: 0 moves to the start of the cursor line with column 0, and 4 (the $
    motion) to the end of the line before its terminator; both set the
    desired column to the new column. *)
Theorem line_start_end_motions : forall s pre l1 l2 rest,
  s.(vim_mode) = VimMode.Normal -> s.(current_operation) = VimOperation.None ->
  line_prefix pre -> ~ In nl (l1 ++ l2) -> line_suffix rest ->
  s.(cursor_position) = byte_len (pre ++ l1) ->
  (exists s', step ua s (pre ++ l1 ++ l2 ++ rest) (press Key.Num0)
                = Some (s', pre ++ l1 ++ l2 ++ rest)
              /\ s'.(cursor_position) = byte_len pre
              /\ s'.(cursor_column) = 0 /\ s'.(desired_column) = 0)
  /\ (exists s', step ua s (pre ++ l1 ++ l2 ++ rest) (press Key.Num4)
                   = Some (s', pre ++ l1 ++ l2 ++ rest)
                 /\ s'.(cursor_position) = byte_len (pre ++ l1 ++ l2)
                 /\ s'.(cursor_column) = byte_len (l1 ++ l2)
                 /\ s'.(desired_column) = byte_len (l1 ++ l2)).
Proof.
  intros s pre l1 l2 rest Hm Ho Hpre Hnl Hr Hc.
  assert (Hnl1 : ~ In nl l1) by (intro; apply Hnl, in_or_app; left; assumption).
  assert (Hnl2 : ~ In nl l2) by (intro; apply Hnl, in_or_app; right; assumption).
  split.
  - pose proof (line_column_at (set_cursor_position s (byte_len pre)) pre []
                  (l1 ++ l2 ++ rest) Hpre (fun H => H)) as Hu.
    rewrite app_nil_r in Hu. specialize (Hu eq_refl). simpl app in Hu.
    eexists. split.
    { unfold press. rewrite (normal_step _ _ _ _ Hm Ho).
      unfold normal_key, handled, move_line_start, move_horizontal.
      rewrite Hc, line_start_mid by assumption. cbn [obind]. rewrite Hu. reflexivity. }
    split; [reflexivity | split; reflexivity].
  - pose proof (line_column_at (set_cursor_position s (byte_len (pre ++ l1 ++ l2))) pre
                  (l1 ++ l2) rest Hpre Hnl) as Hu.
    rewrite app_assoc in Hu. specialize (Hu eq_refl). rewrite <- !app_assoc in Hu.
    eexists. split.
    { unfold press. rewrite (normal_step _ _ _ _ Hm Ho).
      unfold normal_key, handled, move_line_end, move_horizontal.
      rewrite Hc, app_assoc, line_end_mid by assumption. cbn [obind]. rewrite <- app_assoc.
      replace (byte_len (pre ++ l1) + byte_len l2) with (byte_len (pre ++ l1 ++ l2))
        by (rewrite !byte_len_app; lia).
      rewrite Hu. reflexivity. }
    split; [reflexivity | split; reflexivity].
Qed.

(** X14: Escape in Normal mode with a pending operator cancels it and
    changes neither the document, the cursor, the register nor the mode. *)
Theorem escape_cancels_pending_operator : forall s t m,
  s.(vim_mode) = VimMode.Normal -> s.(current_operation) <> VimOperation.None ->
  exists s', handle_key_press ua s Key.Escape t m = Some (s', t, (false, None))
             /\ s'.(current_operation) = VimOperation.None
             /\ s'.(cursor_position) = s.(cursor_position)
             /\ s'.(register_buffer) = s.(register_buffer)
             /\ s'.(vim_mode) = VimMode.Normal.
Proof.
  intros s t m Hm Ho. unfold handle_key_press. rewrite Hm.
  unfold handle_normal_mode_key, handle_pending.
  destruct (current_operation s) eqn:E; [contradiction| | |]; simpl;
  eexists; (split; [reflexivity | simpl; auto]).
Qed.

(** X15: No event in Command mode changes the document. *)
Theorem command_mode_keeps_document : forall s t ev,
  s.(vim_mode) = VimMode.Command ->
  exists s', step ua s t ev = Some (s', t).
Proof.
  intros s t [key m | c] Hm; unfold step.
  - unfold handle_key_press. rewrite Hm. unfold handle_command_mode_key.
    destruct key; simpl; eauto.
    destruct (1 <? byte_len (command_buffer s)); simpl; eauto.
  - unfold handle_text_input. rewrite Hm. destruct (32 <=? c)%N; eauto.
Qed.

(** X16: With no pending operator, the motion keys h, l, j, k, w, b, 0, 4
    and the arrows change neither the document nor the register, and stay in
    Normal mode with no operator. *)
Theorem motions_keep_document : forall s t k m s' t',
  s.(vim_mode) = VimMode.Normal -> s.(current_operation) = VimOperation.None ->
  In k [Key.H; Key.L; Key.J; Key.K; Key.W; Key.B; Key.Num0; Key.Num4;
        Key.ArrowLeft; Key.ArrowRight; Key.ArrowUp; Key.ArrowDown] ->
  step ua s t (KeyPress k m) = Some (s', t') ->
  t' = t /\ s'.(register_buffer) = s.(register_buffer)
  /\ s'.(vim_mode) = VimMode.Normal /\ s'.(current_operation) = VimOperation.None.
Proof.
  intros s t k m s' t' Hm Ho Hk H.
  rewrite (normal_step _ _ _ _ Hm Ho) in H.
  simpl in Hk; repeat destruct Hk as [<- | Hk]; try contradiction;
  unfold normal_key, handled, move_left, move_right, move_up, move_down, word_forward,
    word_backward, move_line_start, move_line_end in H;
  unfold move_vertical, move_horizontal in H;
  inv_some; simpl; auto.
Qed.

(** X17: yw and yy change neither the document nor the cursor, and end the
    pending operator in Normal mode. *)
Theorem yank_keeps_document_and_cursor : forall s t k m s' t',
  s.(vim_mode) = VimMode.Normal -> s.(current_operation) = VimOperation.Yank ->
  (k = Key.W \/ k = Key.Y) ->
  step ua s t (KeyPress k m) = Some (s', t') ->
  t' = t /\ s'.(cursor_position) = s.(cursor_position)
  /\ s'.(vim_mode) = VimMode.Normal /\ s'.(current_operation) = VimOperation.None.
Proof.
  intros s t k m s' t' Hm Ho Hk H.
  rewrite (pending_step _ _ _ _ VimOperation.Yank Hm Ho) in H by discriminate.
  unfold handle_pending, finish in H. rewrite Ho in H.
  destruct Hk as [-> | ->]; unfold word_operator, yank_line in H; inv_some;
  repeat match goal with
  | E : option_map _ ?m = Some _ |- _ =>
      let E' := fresh "E" in destruct m as [?|] eqn:E'; simpl in E; inv_some
  end; try discriminate; simpl; auto.
Qed.
End Lines.

Section Vertical.
Variable ua : char -> bool.


Lemma ascii_byte_len : forall l, ascii_text l -> byte_len l = List.length l.
Proof.
  unfold ascii_text. intros l H. induction H as [|c l Hc _ IH]; simpl; [reflexivity|].
  rewrite len_utf8_ascii by assumption. lia.
Qed.

Lemma ascii_firstn : forall l j, ascii_text l -> ascii_text (firstn j l).
Proof.
  unfold ascii_text. intros l j H. revert j.
  induction H as [|c l Hc _ IH]; intros [|j]; simpl; constructor; auto.
Qed.

Lemma walk_ascii : forall q n1 rest k j, ascii_text n1 -> j + k <= List.length n1 ->
  walk_columns (q ++ n1 ++ rest) (byte_len q + j) (byte_len q + List.length n1) k
  = Some (byte_len q + j + k).
Proof.
  intros q n1 rest k. induction k as [|k IH]; intros j Ha Hjk; simpl.
  - f_equal; lia.
  - rewrite (proj2 (Nat.ltb_lt _ _)) by lia.
    assert (Hs : slice_from (q ++ n1 ++ rest) (byte_len q + j) = Some (skipn j n1 ++ rest)).
    { rewrite <- (firstn_skipn j n1) at 1. rewrite <- app_assoc, app_assoc.
      replace (byte_len q + j) with (byte_len (q ++ firstn j n1)).
      - apply slice_from_app.
      - rewrite byte_len_app, (ascii_byte_len (firstn j n1)) by (apply ascii_firstn; assumption).
        rewrite length_firstn. lia. }
    rewrite Hs. cbn [obind].
    destruct (skipn j n1) as [|c r] eqn:Ek.
    { apply (f_equal (@List.length _)) in Ek. rewrite length_skipn in Ek. simpl in Ek. lia. }
    simpl first_char. cbn iota.
    assert (Hc : (c < 128)%N).
    { assert (Hin : In c n1).
      { rewrite <- (firstn_skipn j n1). apply in_or_app; right. rewrite Ek. left. reflexivity. }
      exact (proj1 (Forall_forall _ _) Ha c Hin). }
    rewrite len_utf8_ascii by assumption.
    rewrite <- Nat.add_assoc, IH by (assumption || lia). f_equal; lia.
Qed.

Lemma is_empty_nl : forall a b, is_empty (a ++ nl :: b) = false.
Proof. intros [|x a] b; reflexivity. Qed.

Lemma next_line_ascii : forall s pre l1 l2 n1 rest,
  ~ In nl l2 -> ~ In nl n1 -> line_suffix rest -> n1 ++ rest <> [] -> ascii_text n1 ->
  s.(cursor_position) = byte_len (pre ++ l1) ->
  find_position_on_next_line s (pre ++ l1 ++ l2 ++ nl :: n1 ++ rest)
  = Some (Some (byte_len (pre ++ l1 ++ l2 ++ [nl])
                + Nat.min (Nat.max s.(desired_column) s.(cursor_column)) (List.length n1))).
Proof.
  intros s pre l1 l2 n1 rest Hl2 Hn1 Hr Hne Ha Hc.
  set (q := pre ++ l1 ++ l2 ++ [nl]).
  set (col := Nat.min (Nat.max s.(desired_column) s.(cursor_column)) (List.length n1)).
  assert (Hq : byte_len q = byte_len (pre ++ l1) + byte_len l2 + 1)
    by (unfold q; rewrite !byte_len_app; cbn [byte_len]; rewrite len_utf8_nl; lia).
  assert (Ht : pre ++ l1 ++ l2 ++ nl :: n1 ++ rest = q ++ n1 ++ rest)
    by (unfold q; rewrite <- !app_assoc; reflexivity).
  assert (Hn : byte_len n1 = List.length n1) by (apply ascii_byte_len; assumption).
  assert (Hlen : byte_len q < byte_len (q ++ n1 ++ rest)).
  { rewrite byte_len_app. destruct (n1 ++ rest) as [|x r]; [contradiction|].
    simpl. pose proof (len_utf8_pos x). lia. }
  unfold find_position_on_next_line.
  replace (is_empty _) with false
    by (symmetry; rewrite app_assoc, app_assoc; apply is_empty_nl).
  rewrite app_assoc, Hc, slice_from_app. cbn [obind]. rewrite <- app_assoc.
  rewrite find_char_app_notin by assumption. simpl find_char. rewrite ?N.eqb_refl. cbn [option_map].
  replace (byte_len (pre ++ l1) + (byte_len l2 + 0) + 1) with (byte_len q) by lia.
  rewrite Ht, (proj2 (Nat.leb_gt _ _) Hlen), slice_from_app. cbn [obind].
  replace (match find_char nl (n1 ++ rest) with
           | Some p => byte_len q + p
           | None => byte_len (q ++ n1 ++ rest)
           end) with (byte_len q + List.length n1).
  2:{ rewrite find_char_app_notin by assumption.
      destruct Hr as [-> | [post ->]]; simpl.
      - rewrite app_nil_r, byte_len_app. lia.
      - rewrite ?N.eqb_refl. simpl. lia. }
  destruct (Nat.eqb_spec (byte_len q) (byte_len q + List.length n1)) as [E|E].
  - f_equal. f_equal. unfold col. lia.
  - replace (byte_len q + List.length n1 - byte_len q) with (List.length n1) by lia.
    fold col. pose proof (walk_ascii q n1 rest col 0 Ha) as W.
    rewrite Nat.add_0_r in W. rewrite W by (unfold col; lia). reflexivity.
Qed.

(** X18: j to a next line of ASCII text lands at column min(max(desired
    column, current column), line length) of that line and keeps the desired
    column. *)
Theorem down_lands_at_sticky_column : forall s pre l1 l2 n1 rest,
  s.(vim_mode) = VimMode.Normal -> s.(current_operation) = VimOperation.None ->
  line_prefix pre -> ~ In nl (l1 ++ l2) -> ~ In nl n1 -> line_suffix rest ->
  n1 ++ rest <> [] -> ascii_text n1 ->
  s.(cursor_position) = byte_len (pre ++ l1) -> s.(cursor_column) = byte_len l1 ->
  exists s',
    step ua s (pre ++ l1 ++ l2 ++ nl :: n1 ++ rest) (press Key.J)
      = Some (s', pre ++ l1 ++ l2 ++ nl :: n1 ++ rest)
    /\ s'.(cursor_position)
       = byte_len (pre ++ l1 ++ l2) + 1
         + Nat.min (Nat.max s.(desired_column) (byte_len l1)) (List.length n1)
    /\ s'.(cursor_column) = Nat.min (Nat.max s.(desired_column) (byte_len l1)) (List.length n1)
    /\ s'.(desired_column) = s.(desired_column).
Proof.
  intros s pre l1 l2 n1 rest Hm Ho Hpre Hnl Hn1 Hr Hne Ha Hc Hcol.
  assert (Hl2 : ~ In nl l2) by (intro; apply Hnl, in_or_app; right; assumption).
  set (q := pre ++ l1 ++ l2 ++ [nl]).
  set (col := Nat.min (Nat.max s.(desired_column) (byte_len l1)) (List.length n1)).
  pose proof (next_line_ascii s pre l1 l2 n1 rest Hl2 Hn1 Hr Hne Ha Hc) as Hf.
  rewrite Hcol in Hf. fold q col in Hf.
  assert (Hq : line_prefix q) by (right; exists (pre ++ l1 ++ l2); unfold q; rewrite <- !app_assoc; reflexivity).
  assert (Hx : ~ In nl (firstn col n1)).
  { intro H. apply Hn1. rewrite <- (firstn_skipn col n1). apply in_or_app; left; exact H. }
  assert (Hfc : byte_len (firstn col n1) = col).
  { rewrite ascii_byte_len by (apply ascii_firstn; assumption). rewrite length_firstn.
    unfold col. lia. }
  pose proof (line_column_at (set_cursor_position s (byte_len q + col)) q (firstn col n1)
                (skipn col n1 ++ rest) Hq Hx) as Hu.
  rewrite (app_assoc (firstn col n1)), (firstn_skipn col n1) in Hu.
  assert (Ht : pre ++ l1 ++ l2 ++ nl :: n1 ++ rest = q ++ n1 ++ rest)
    by (unfold q; rewrite <- !app_assoc; reflexivity).
  rewrite <- Ht in Hu. specialize (Hu ltac:(simpl; rewrite byte_len_app, Hfc; reflexivity)).
  eexists. split.
  { unfold press. rewrite (normal_step ua _ _ _ _ Hm Ho).
    unfold normal_key, handled, move_down, move_vertical. rewrite Hf. cbn [obind].
    rewrite Hu. reflexivity. }
  simpl. rewrite Hfc. split; [|split; reflexivity].
  unfold q. rewrite !byte_len_app. cbn [byte_len]. rewrite len_utf8_nl. lia.
Qed.

Lemma prev_line_ascii : forall s pre p1 l1 r,
  line_prefix pre -> ~ In nl p1 -> ~ In nl l1 -> ascii_text p1 ->
  s.(cursor_position) = byte_len (pre ++ p1 ++ nl :: l1) ->
  find_position_on_previous_line s (pre ++ p1 ++ nl :: l1 ++ r)
  = Some (Some (byte_len pre
                + Nat.min (Nat.max s.(desired_column) s.(cursor_column)) (List.length p1))).
Proof.
  intros s pre p1 l1 r Hpre Hp1 Hl1 Ha Hc.
  set (col := Nat.min (Nat.max s.(desired_column) s.(cursor_column)) (List.length p1)).
  set (Q := pre ++ p1 ++ [nl]).
  assert (HQ : line_prefix Q) by (right; exists (pre ++ p1); unfold Q; rewrite <- !app_assoc; reflexivity).
  assert (Ht : pre ++ p1 ++ nl :: l1 ++ r = Q ++ l1 ++ r)
    by (unfold Q; rewrite <- !app_assoc; reflexivity).
  assert (HbQ : byte_len Q = byte_len pre + List.length p1 + 1).
  { unfold Q. rewrite !byte_len_app, (ascii_byte_len p1) by assumption. cbn [byte_len].
    rewrite len_utf8_nl. lia. }
  assert (Hc' : s.(cursor_position) = byte_len (Q ++ l1))
    by (rewrite Hc; unfold Q; rewrite <- !app_assoc; reflexivity).
  unfold find_position_on_previous_line.
  replace (is_empty _) with false
    by (symmetry; rewrite app_assoc; apply is_empty_nl).
  rewrite Ht, Hc', (line_start_mid Q l1 r HQ Hl1). cbn [obind].
  rewrite HbQ. replace (byte_len pre + List.length p1 + 1 =? 0) with false
    by (symmetry; apply Nat.eqb_neq; lia).
  replace (byte_len pre + List.length p1 + 1 - 1) with (byte_len (pre ++ p1))
    by (rewrite byte_len_app, (ascii_byte_len p1) by assumption; lia).
  rewrite <- Ht, (line_start_mid pre p1 _ Hpre Hp1). cbn [obind].
  rewrite byte_len_app, (ascii_byte_len p1) by assumption.
  destruct (Nat.eqb_spec (byte_len pre) (byte_len pre + List.length p1)) as [E|E].
  - f_equal. f_equal. unfold col. lia.
  - replace (byte_len pre + List.length p1 - byte_len pre) with (List.length p1) by lia.
    fold col. pose proof (walk_ascii pre p1 (nl :: l1 ++ r) col 0 Ha) as W.
    rewrite Nat.add_0_r in W. rewrite W by (unfold col; lia). reflexivity.
Qed.

(** X19: k to a previous line of ASCII text lands at column min(max(desired
    column, current column), line length) of that line and keeps the desired
    column. *)
Theorem up_lands_at_sticky_column : forall s pre p1 l1 r,
  s.(vim_mode) = VimMode.Normal -> s.(current_operation) = VimOperation.None ->
  line_prefix pre -> ~ In nl p1 -> ~ In nl l1 -> ascii_text p1 ->
  s.(cursor_position) = byte_len (pre ++ p1 ++ nl :: l1) -> s.(cursor_column) = byte_len l1 ->
  exists s',
    step ua s (pre ++ p1 ++ nl :: l1 ++ r) (press Key.K)
      = Some (s', pre ++ p1 ++ nl :: l1 ++ r)
    /\ s'.(cursor_position)
       = byte_len pre + Nat.min (Nat.max s.(desired_column) (byte_len l1)) (List.length p1)
    /\ s'.(cursor_column) = Nat.min (Nat.max s.(desired_column) (byte_len l1)) (List.length p1)
    /\ s'.(desired_column) = s.(desired_column).
Proof.
  intros s pre p1 l1 r Hm Ho Hpre Hp1 Hl1 Ha Hc Hcol.
  set (col := Nat.min (Nat.max s.(desired_column) (byte_len l1)) (List.length p1)).
  pose proof (prev_line_ascii s pre p1 l1 r Hpre Hp1 Hl1 Ha Hc) as Hf.
  rewrite Hcol in Hf. fold col in Hf.
  assert (Hx : ~ In nl (firstn col p1)).
  { intro H. apply Hp1. rewrite <- (firstn_skipn col p1). apply in_or_app; left; exact H. }
  assert (Hfc : byte_len (firstn col p1) = col).
  { rewrite ascii_byte_len by (apply ascii_firstn; assumption). rewrite length_firstn.
    unfold col. lia. }
  pose proof (line_column_at (set_cursor_position s (byte_len pre + col)) pre (firstn col p1)
                (skipn col p1 ++ nl :: l1 ++ r) Hpre Hx) as Hu.
  rewrite (app_assoc (firstn col p1)), (firstn_skipn col p1) in Hu.
  specialize (Hu ltac:(simpl; rewrite byte_len_app, Hfc; reflexivity)).
  eexists. split.
  { unfold press. rewrite (normal_step ua _ _ _ _ Hm Ho).
    unfold normal_key, handled, move_up, move_vertical. rewrite Hf. cbn [obind].
    rewrite Hu. reflexivity. }
  simpl. rewrite Hfc. split; [reflexivity|split; reflexivity].
Qed.
End Vertical.

Section Ends.
Variable ua : char -> bool.

Lemma insert_step : forall s t k m,
  s.(vim_mode) = VimMode.Insert ->
  step ua s t (KeyPress k m)
  = (let? o := handle_insert_mode_key s k t m in let '(s', t', _) := o in Some (s', t')).
Proof.
  intros s t k m Hm. unfold step, handle_key_press. rewrite Hm. reflexivity.
Qed.

Lemma at_line_start : forall s pre l1 l2 rest,
  line_prefix pre -> ~ In nl (l1 ++ l2) -> s.(cursor_position) = byte_len (pre ++ l1) ->
  line_start (pre ++ l1 ++ l2 ++ rest) s.(cursor_position) = Some (byte_len pre)
  /\ update_cursor_line_column (set_cursor_position s (byte_len pre)) (pre ++ l1 ++ l2 ++ rest)
     = Some (set_line_column (set_cursor_position s (byte_len pre)) (count_occ N.eq_dec pre nl) 0).
Proof.
  intros s pre l1 l2 rest Hpre Hnl Hc.
  assert (Hnl1 : ~ In nl l1) by (intro; apply Hnl, in_or_app; left; assumption).
  split.
  - rewrite Hc, app_assoc. rewrite <- (app_assoc pre l1). apply line_start_mid; assumption.
  - pose proof (line_column_at (set_cursor_position s (byte_len pre)) pre []
                  (l1 ++ l2 ++ rest) Hpre (fun H => H)) as Hu.
    rewrite app_nil_r in Hu. specialize (Hu eq_refl). simpl app in Hu. exact Hu.
Qed.

Lemma at_line_end : forall s pre l1 l2 rest,
  line_prefix pre -> ~ In nl (l1 ++ l2) -> line_suffix rest ->
  s.(cursor_position) = byte_len (pre ++ l1) ->
  line_end (pre ++ l1 ++ l2 ++ rest) s.(cursor_position) = Some (byte_len (pre ++ l1 ++ l2))
  /\ update_cursor_line_column (set_cursor_position s (byte_len (pre ++ l1 ++ l2)))
       (pre ++ l1 ++ l2 ++ rest)
     = Some (set_line_column (set_cursor_position s (byte_len (pre ++ l1 ++ l2)))
               (count_occ N.eq_dec pre nl) (byte_len (l1 ++ l2))).
Proof.
  intros s pre l1 l2 rest Hpre Hnl Hr Hc.
  assert (Hnl2 : ~ In nl l2) by (intro; apply Hnl, in_or_app; right; assumption).
  split.
  - rewrite Hc, app_assoc, line_end_mid by assumption.
    f_equal. rewrite !byte_len_app. lia.
  - pose proof (line_column_at (set_cursor_position s (byte_len (pre ++ l1 ++ l2))) pre
                  (l1 ++ l2) rest Hpre Hnl) as Hu.
    rewrite app_assoc in Hu. specialize (Hu eq_refl). rewrite <- !app_assoc in Hu. exact Hu.
Qed.

(** X20: I (shift+i) moves to the start of the cursor line and A (shift+a)
    to its end before the terminator; both enter Insert mode and keep the
    document. *)
Theorem insert_at_line_start_end : forall s pre l1 l2 rest,
  s.(vim_mode) = VimMode.Normal -> s.(current_operation) = VimOperation.None ->
  line_prefix pre -> ~ In nl (l1 ++ l2) -> line_suffix rest ->
  s.(cursor_position) = byte_len (pre ++ l1) ->
  (exists s', step ua s (pre ++ l1 ++ l2 ++ rest) (KeyPress Key.I shift_mods)
                = Some (s', pre ++ l1 ++ l2 ++ rest)
              /\ s'.(cursor_position) = byte_len pre
              /\ s'.(cursor_line) = count_occ N.eq_dec pre nl /\ s'.(cursor_column) = 0
              /\ s'.(vim_mode) = VimMode.Insert)
  /\ (exists s', step ua s (pre ++ l1 ++ l2 ++ rest) (KeyPress Key.A shift_mods)
                   = Some (s', pre ++ l1 ++ l2 ++ rest)
                 /\ s'.(cursor_position) = byte_len (pre ++ l1 ++ l2)
                 /\ s'.(cursor_line) = count_occ N.eq_dec pre nl
                 /\ s'.(cursor_column) = byte_len (l1 ++ l2)
                 /\ s'.(vim_mode) = VimMode.Insert).
Proof.
  intros s pre l1 l2 rest Hm Ho Hpre Hnl Hr Hc.
  destruct (at_line_start s pre l1 l2 rest Hpre Hnl Hc) as [Hls Hus].
  destruct (at_line_end s pre l1 l2 rest Hpre Hnl Hr Hc) as [Hle Hue].
  split.
  - eexists. split.
    { rewrite (normal_step ua _ _ _ _ Hm Ho).
      unfold normal_key, handled, key_i, move_to. cbn [shift shift_mods].
      rewrite Hls. cbn [obind]. rewrite Hus. reflexivity. }
    simpl. auto.
  - eexists. split.
    { rewrite (normal_step ua _ _ _ _ Hm Ho).
      unfold normal_key, handled, key_a, move_to. cbn [shift shift_mods].
      rewrite Hle. cbn [obind]. rewrite Hue. reflexivity. }
    simpl. auto.
Qed.

(** X21: In Insert mode, Home moves to the start of the cursor line and End
    to its end before the terminator; both keep the document, the mode and
    the desired column. *)
Theorem home_end_in_insert_mode : forall s pre l1 l2 rest m,
  s.(vim_mode) = VimMode.Insert ->
  line_prefix pre -> ~ In nl (l1 ++ l2) -> line_suffix rest ->
  s.(cursor_position) = byte_len (pre ++ l1) ->
  (exists s', step ua s (pre ++ l1 ++ l2 ++ rest) (KeyPress Key.Home m)
                = Some (s', pre ++ l1 ++ l2 ++ rest)
              /\ s'.(cursor_position) = byte_len pre
              /\ s'.(cursor_line) = count_occ N.eq_dec pre nl /\ s'.(cursor_column) = 0
              /\ s'.(desired_column) = s.(desired_column) /\ s'.(vim_mode) = VimMode.Insert)
  /\ (exists s', step ua s (pre ++ l1 ++ l2 ++ rest) (KeyPress Key.End_ m)
                   = Some (s', pre ++ l1 ++ l2 ++ rest)
                 /\ s'.(cursor_position) = byte_len (pre ++ l1 ++ l2)
                 /\ s'.(cursor_line) = count_occ N.eq_dec pre nl
                 /\ s'.(cursor_column) = byte_len (l1 ++ l2)
                 /\ s'.(desired_column) = s.(desired_column) /\ s'.(vim_mode) = VimMode.Insert).
Proof.
  intros s pre l1 l2 rest m Hm Hpre Hnl Hr Hc.
  destruct (at_line_start s pre l1 l2 rest Hpre Hnl Hc) as [Hls Hus].
  destruct (at_line_end s pre l1 l2 rest Hpre Hnl Hr Hc) as [Hle Hue].
  split.
  - eexists. split.
    { rewrite (insert_step _ _ _ _ Hm).
      unfold handle_insert_mode_key, handled, move_to.
      rewrite Hls. cbn [obind]. rewrite Hus. reflexivity. }
    simpl. auto.
  - eexists. split.
    { rewrite (insert_step _ _ _ _ Hm).
      unfold handle_insert_mode_key, handled, move_to.
      rewrite Hle. cbn [obind]. rewrite Hue. reflexivity. }
    simpl. auto.
Qed.
End Ends.


Lemma slice_ascii_one : forall q c r, (c < 128)%N ->
  slice (q ++ c :: r) (byte_len q) (byte_len q + 1) = Some [c].
Proof.
  intros q c r Hc. pose proof (slice_mid q [c] r) as H. simpl in H.
  rewrite len_utf8_ascii in H by assumption. exact H.
Qed.

Lemma skip_run : forall seg q r ws f,
  ascii_text seg -> Forall (fun c => is_whitespace c = ws) seg -> List.length seg <= f ->
  (f = List.length seg \/ r = []
   \/ exists c r', r = c :: r' /\ (c < 128)%N /\ is_whitespace c = negb ws) ->
  skip_forward (q ++ seg ++ r) ws (byte_len q) f = Some (byte_len q + List.length seg).
Proof.
  induction seg as [|c seg IH]; intros q r ws f Ha Hw Hf Hr.
  - simpl. rewrite Nat.add_0_r. destruct f as [|f]; [reflexivity|].
    destruct Hr as [Hr|[Hr|[c [r' [-> [Hc Hwc]]]]]]; [simpl in Hr; lia| |].
    + subst r. simpl. rewrite app_nil_r, Nat.ltb_irrefl. reflexivity.
    + simpl. rewrite byte_len_app. simpl.
      rewrite (proj2 (Nat.ltb_lt _ _)) by (pose proof (len_utf8_pos c); lia).
      rewrite slice_ascii_one by assumption. cbn [obind first_char unwrap_or].
      rewrite Hwc. destruct ws; reflexivity.
  - unfold ascii_text in Ha. apply Forall_cons_iff in Ha as [Hc Ha'].
    apply Forall_cons_iff in Hw as [Hwc Hw'].
    destruct f as [|f]; [simpl in Hf; lia|].
    simpl skip_forward.
    rewrite (proj2 (Nat.ltb_lt _ _))
      by (rewrite byte_len_app; simpl; pose proof (len_utf8_pos c); lia).
    simpl app. rewrite slice_ascii_one by assumption. cbn [obind first_char unwrap_or].
    rewrite Hwc, eqb_reflx.
    replace (q ++ c :: seg ++ r) with ((q ++ [c]) ++ seg ++ r) by (rewrite <- app_assoc; reflexivity).
    replace (byte_len q + 1) with (byte_len (q ++ [c]))
      by (rewrite byte_len_app; simpl; rewrite len_utf8_ascii by assumption; lia).
    rewrite IH; [| exact Ha' | exact Hw' | simpl in Hf; lia | simpl in Hr; destruct Hr as [Hr|Hr]; [left; lia | right; exact Hr]].
    f_equal. rewrite byte_len_app. simpl. rewrite len_utf8_ascii by assumption. lia.
Qed.

Lemma ascii_app_inv : forall a b, ascii_text (a ++ b) -> ascii_text a /\ ascii_text b.
Proof. intros a b H. unfold ascii_text in *. apply Forall_app in H. exact H. Qed.

Lemma word_end_ascii : forall p w ws r,
  ascii_text (w ++ ws) -> Forall (fun c => is_whitespace c = false) w ->
  Forall (fun c => is_whitespace c = true) ws -> ws <> [] ->
  (r = [] \/ exists c r', r = c :: r' /\ (c < 128)%N /\ is_whitespace c = false) ->
  word_forward_end (p ++ w ++ ws ++ r) (byte_len p) = Some (byte_len (p ++ w ++ ws))
  /\ byte_len p < byte_len (p ++ w ++ ws) <= byte_len (p ++ w ++ ws ++ r).
Proof.
  intros p w ws r Ha Hw Hws Hne Hr.
  destruct (ascii_app_inv w ws Ha) as [Haw Haws].
  destruct ws as [|c ws']; [contradiction|].
  pose proof (Forall_inv Haws) as Hc0. pose proof (Forall_inv Hws) as Hwc0. cbn beta in Hc0, Hwc0.
  set (t := p ++ w ++ (c :: ws') ++ r).
  assert (Hlen : byte_len t = byte_len p + List.length w + List.length (c :: ws') + byte_len r).
  { unfold t. rewrite !byte_len_app, (ascii_byte_len w), (ascii_byte_len (c :: ws')) by assumption. lia. }
  assert (H1 : skip_forward t false (byte_len p) (byte_len t - byte_len p)
               = Some (byte_len p + List.length w)).
  { apply skip_run; [exact Haw | exact Hw | simpl in Hlen; lia |].
    right; right. exists c, (ws' ++ r). split; [reflexivity|]. split; assumption. }
  assert (Ht : t = (p ++ w) ++ (c :: ws') ++ r) by (unfold t; rewrite <- app_assoc; reflexivity).
  assert (Hpw : byte_len (p ++ w) = byte_len p + List.length w)
    by (rewrite byte_len_app, (ascii_byte_len w) by assumption; reflexivity).
  assert (Hend : byte_len (p ++ w ++ c :: ws') = byte_len p + List.length w + List.length (c :: ws')).
  { rewrite app_assoc, (byte_len_app (p ++ w)), (ascii_byte_len (c :: ws')) by assumption. lia. }
  split.
  - unfold word_forward_end. fold t. rewrite H1. cbn [obind].
    rewrite <- Hpw. rewrite Ht at 1. rewrite skip_run; [| exact Haws | exact Hws | rewrite Hpw; simpl in Hlen |- *; lia
    | destruct Hr as [Hr|[c' [r' [Hr [Hc' Hw']]]]]; [right; left; exact Hr | right; right; exists c', r'; auto]].
    f_equal. rewrite Hend, Hpw. reflexivity.
  - fold t. rewrite Hend, Hlen. simpl. lia.
Qed.

(** X22: w with the cursor on a run of ASCII non-whitespace followed by
    ASCII whitespace moves to the first character after that whitespace,
    provided it is ASCII; the desired column follows the new column. *)
Theorem w_moves_to_next_word : forall ua s p w ws r,
  s.(vim_mode) = VimMode.Normal -> s.(current_operation) = VimOperation.None ->
  ascii_text (w ++ ws) -> Forall (fun c => is_whitespace c = false) w ->
  Forall (fun c => is_whitespace c = true) ws -> ws <> [] ->
  (r = [] \/ exists c r', r = c :: r' /\ (c < 128)%N /\ is_whitespace c = false) ->
  s.(cursor_position) = byte_len p ->
  exists s', step ua s (p ++ w ++ ws ++ r) (press Key.W) = Some (s', p ++ w ++ ws ++ r)
             /\ s'.(cursor_position) = byte_len (p ++ w ++ ws)
             /\ s'.(desired_column) = s'.(cursor_column).
Proof.
  intros ua s p w ws r Hm Ho Ha Hw Hws Hne Hr Hc.
  destruct (word_end_ascii p w ws r Ha Hw Hws Hne Hr) as [He Hlt].
  destruct (update_at (set_cursor_position s (byte_len (p ++ w ++ ws))) (p ++ w ++ ws) r
              eq_refl) as [l [col Hu]].
  rewrite <- !app_assoc in Hu.
  eexists. split.
  { unfold press. rewrite (normal_step ua _ _ _ _ Hm Ho).
    unfold normal_key, handled, word_forward.
    rewrite Hc. rewrite (proj2 (Nat.ltb_lt _ _)) by lia.
    rewrite He. cbn [obind].
    rewrite (proj2 (Nat.ltb_lt _ _)), (proj2 (Nat.leb_le _ _)) by lia.
    cbn [andb]. unfold move_horizontal. rewrite Hu. reflexivity. }
  simpl. split; reflexivity.
Qed.

(** X23: dw, cw and yw (register not holding i) with the cursor on a run of
    ASCII non-whitespace followed by ASCII whitespace put that run and the
    whitespace in the register; dw and cw remove them, cw enters Insert
    mode, yw keeps the text. *)
Theorem word_operators_take_word_and_space : forall ua s p w ws r,
  s.(vim_mode) = VimMode.Normal -> s.(register_buffer) <> str "i" ->
  ascii_text (w ++ ws) -> Forall (fun c => is_whitespace c = false) w ->
  Forall (fun c => is_whitespace c = true) ws -> ws <> [] ->
  (r = [] \/ exists c r', r = c :: r' /\ (c < 128)%N /\ is_whitespace c = false) ->
  s.(cursor_position) = byte_len p ->
  (exists s', step ua (set_current_operation s VimOperation.Delete) (p ++ w ++ ws ++ r)
                (press Key.W) = Some (s', p ++ r)
              /\ s'.(register_buffer) = w ++ ws /\ s'.(cursor_position) = byte_len p
              /\ s'.(vim_mode) = VimMode.Normal /\ s'.(current_operation) = VimOperation.None)
  /\ (exists s', step ua (set_current_operation s VimOperation.Change) (p ++ w ++ ws ++ r)
                   (press Key.W) = Some (s', p ++ r)
                 /\ s'.(register_buffer) = w ++ ws /\ s'.(cursor_position) = byte_len p
                 /\ s'.(vim_mode) = VimMode.Insert /\ s'.(current_operation) = VimOperation.None)
  /\ (exists s', step ua (set_current_operation s VimOperation.Yank) (p ++ w ++ ws ++ r)
                   (press Key.W) = Some (s', p ++ w ++ ws ++ r)
                 /\ s'.(register_buffer) = w ++ ws /\ s'.(cursor_position) = byte_len p
                 /\ s'.(vim_mode) = VimMode.Normal /\ s'.(current_operation) = VimOperation.None).
Proof.
  intros ua s p w ws r Hm Hreg Ha Hw Hws Hne Hr Hc.
  destruct (word_end_ascii p w ws r Ha Hw Hws Hne Hr) as [He Hlt].
  assert (Hi : text_eqb s.(register_buffer) (str "i") = false).
  { destruct (text_eqb _ _) eqn:E; [apply text_eqb_eq in E; contradiction | reflexivity]. }
  assert (Hsl : slice (p ++ w ++ ws ++ r) (byte_len p) (byte_len (p ++ w ++ ws)) = Some (w ++ ws)).
  { replace (p ++ w ++ ws ++ r) with (p ++ (w ++ ws) ++ r) by (rewrite <- app_assoc; reflexivity).
    replace (byte_len (p ++ w ++ ws)) with (byte_len p + byte_len (w ++ ws))
      by (rewrite !byte_len_app; lia).
    apply slice_mid. }
  assert (Hrr : replace_range (p ++ w ++ ws ++ r) (byte_len p) (byte_len (p ++ w ++ ws)) []
                = Some (p ++ r)).
  { replace (p ++ w ++ ws ++ r) with (p ++ (w ++ ws) ++ r) by (rewrite <- app_assoc; reflexivity).
    replace (byte_len (p ++ w ++ ws)) with (byte_len p + byte_len (w ++ ws))
      by (rewrite !byte_len_app; lia).
    apply replace_range_mid. }
  assert (Hu : forall op, exists l col,
            update_cursor_line_column
              (set_register_buffer (set_current_operation s op) (w ++ ws)) (p ++ r)
            = Some (set_line_column
                      (set_register_buffer (set_current_operation s op) (w ++ ws)) l col)).
  { intros op. apply update_at. exact Hc. }
  assert (Hwo : forall op, exists s',
            word_operator true (set_current_operation s op) (p ++ w ++ ws ++ r) = Some (s', p ++ r)
            /\ s'.(register_buffer) = w ++ ws /\ s'.(cursor_position) = byte_len p
            /\ s'.(vim_mode) = VimMode.Normal).
  { intros op. destruct (Hu op) as [l [col Hu']].
    eexists. split.
    - unfold word_operator. cbn [cursor_position set_current_operation]. rewrite Hc.
      rewrite (proj2 (Nat.ltb_lt _ _)) by lia. rewrite He. cbn [obind].
      rewrite (proj2 (Nat.ltb_lt _ _)) by lia. rewrite Hsl. cbn [obind].
      rewrite Hrr. cbn [obind]. rewrite Hu'. reflexivity.
    - simpl. auto. }
  split; [|split].
  - destruct (Hwo VimOperation.Delete) as [s1 [E1 [R1 [C1 M1]]]].
    eexists. split.
    + unfold press. rewrite (pending_step ua _ _ _ _ VimOperation.Delete) by (reflexivity || exact Hm || discriminate).
      unfold handle_pending. cbn [register_buffer set_current_operation current_operation].
      rewrite Hi. cbn [negb]. unfold finish. rewrite E1. reflexivity.
    + simpl. auto.
  - destruct (Hwo VimOperation.Change) as [s1 [E1 [R1 [C1 M1]]]].
    eexists. split.
    + unfold press. rewrite (pending_step ua _ _ _ _ VimOperation.Change) by (reflexivity || exact Hm || discriminate).
      unfold handle_pending. cbn [register_buffer set_current_operation current_operation].
      rewrite Hi. cbn [negb]. unfold finish. rewrite E1. reflexivity.
    + simpl. auto.
  - eexists. split.
    + unfold press. rewrite (pending_step ua _ _ _ _ VimOperation.Yank) by (reflexivity || exact Hm || discriminate).
      unfold handle_pending, finish, word_operator. cbn [cursor_position set_current_operation current_operation].
      rewrite Hc. rewrite (proj2 (Nat.ltb_lt _ _)) by lia. rewrite He. cbn [obind].
      rewrite (proj2 (Nat.ltb_lt _ _)) by lia. rewrite Hsl. reflexivity.
    + simpl. auto.
Qed.

Lemma skip_back_run : forall seg q r ws,
  ascii_text seg -> Forall (fun c => is_whitespace c = ws) seg ->
  (q = [] \/ exists q' c, q = q' ++ [c] /\ (c < 128)%N /\ is_whitespace c = negb ws) ->
  skip_backward (q ++ seg ++ r) ws (byte_len (q ++ seg)) = Some (byte_len q).
Proof.
  induction seg as [|c seg IH] using rev_ind; intros q r ws Ha Hw Hq.
  - rewrite app_nil_r. simpl app.
    destruct Hq as [-> | [q' [c [-> [Hc Hwc]]]]]; [reflexivity|].
    replace (byte_len (q' ++ [c])) with (S (byte_len q'))
      by (rewrite byte_len_app; simpl; rewrite len_utf8_ascii by assumption; lia).
    simpl skip_backward. rewrite <- app_assoc. simpl app.
    replace (S (byte_len q')) with (byte_len q' + 1) by lia.
    rewrite slice_ascii_one by assumption. cbn [obind first_char unwrap_or].
    rewrite Hwc. destruct ws; reflexivity.
  - unfold ascii_text in Ha. apply Forall_app in Ha as [Ha' Hc].
    apply Forall_app in Hw as [Hw' Hwc].
    apply Forall_inv in Hc. apply Forall_inv in Hwc. cbn beta in Hc, Hwc.
    replace (byte_len (q ++ seg ++ [c])) with (S (byte_len (q ++ seg)))
      by (rewrite app_assoc, (byte_len_app (q ++ seg)); simpl; rewrite len_utf8_ascii by assumption; lia).
    simpl skip_backward.
    replace (q ++ (seg ++ [c]) ++ r) with ((q ++ seg) ++ c :: r)
      by (rewrite <- !app_assoc; reflexivity).
    replace (S (byte_len (q ++ seg))) with (byte_len (q ++ seg) + 1) by lia.
    rewrite slice_ascii_one by assumption. cbn [obind first_char unwrap_or].
    rewrite Hwc, eqb_reflx. rewrite <- app_assoc. apply IH; assumption.
Qed.

(** X24: b from just after an ASCII word and the ASCII whitespace following
    it, with whitespace or nothing before the word, moves to the start of
    the word; the desired column follows the new column. *)
Theorem b_moves_to_word_start : forall ua s p w ws r,
  s.(vim_mode) = VimMode.Normal -> s.(current_operation) = VimOperation.None ->
  ascii_text (w ++ ws) -> Forall (fun c => is_whitespace c = false) w ->
  Forall (fun c => is_whitespace c = true) ws -> w <> [] ->
  (p = [] \/ exists p' c, p = p' ++ [c] /\ (c < 128)%N /\ is_whitespace c = true) ->
  s.(cursor_position) = byte_len (p ++ w ++ ws) ->
  exists s', step ua s (p ++ w ++ ws ++ r) (press Key.B) = Some (s', p ++ w ++ ws ++ r)
             /\ s'.(cursor_position) = byte_len p
             /\ s'.(desired_column) = s'.(cursor_column).
Proof.
  intros ua s p w ws r Hm Ho Ha Hw Hws Hne Hp Hc.
  destruct (ascii_app_inv w ws Ha) as [Haw Haws].
  destruct (exists_last Hne) as [w' [c Ew]].
  assert (Hc0 : (c < 128)%N /\ is_whitespace c = false).
  { subst w. unfold ascii_text in Haw. apply Forall_app in Haw as [_ H1].
    apply Forall_app in Hw as [_ H2]. split; [exact (Forall_inv H1) | exact (Forall_inv H2)]. }
  assert (H1 : skip_backward (p ++ w ++ ws ++ r) true (byte_len (p ++ w ++ ws))
               = Some (byte_len (p ++ w))).
  { rewrite !app_assoc. rewrite <- (app_assoc (p ++ w) ws r).
    apply skip_back_run; [exact Haws | exact Hws |].
    right. exists (p ++ w'), c. rewrite Ew, app_assoc. split; [reflexivity | exact Hc0]. }
  assert (H2 : skip_backward (p ++ w ++ ws ++ r) false (byte_len (p ++ w)) = Some (byte_len p)).
  { apply skip_back_run; [exact Haw | exact Hw | exact Hp]. }
  assert (Hlt : byte_len p < byte_len (p ++ w ++ ws)).
  { rewrite Ew, !byte_len_app. simpl. pose proof (len_utf8_pos c). lia. }
  destruct (update_at (set_cursor_position s (byte_len p)) p (w ++ ws ++ r) eq_refl)
    as [l [col Hu]].
  eexists. split.
  { unfold press. rewrite (normal_step ua _ _ _ _ Hm Ho).
    unfold normal_key, handled, word_backward.
    rewrite Hc. rewrite (proj2 (Nat.ltb_lt _ _)) by lia.
    rewrite H1. cbn [obind]. rewrite H2. cbn [obind].
    rewrite (proj2 (Nat.ltb_lt _ _)) by lia.
    unfold move_horizontal. rewrite Hu. reflexivity. }
  simpl. split; reflexivity.
Qed.

(** ** Instances of the properties above *)

Lemma run_bound_witness :
  exists s' t',
    run no_unicode_alphanumeric (editor_at VimMode.Normal 1 0 1 []) (str "ab")
      [press Key.X; press Key.L; press Key.X] = Some (s', t')
    /\ (editor_at VimMode.Normal 1 0 1 []).(cursor_position) <= byte_len (str "ab")
    /\ s'.(cursor_position) <= byte_len t'.
Proof.
  do 2 eexists. split; [reflexivity|]. split; [simpl; lia|].
  apply (run_bound no_unicode_alphanumeric [press Key.X; press Key.L; press Key.X]
           (editor_at VimMode.Normal 1 0 1 []) (str "ab")); [reflexivity | simpl; lia].
Defined.

Lemma mode_display_identifies_mode_witness :
  exists s' t',
    run no_unicode_alphanumeric new (str "ab") [KeyPress Key.Num9 shift_mods; TextInput 119%N]
      = Some (s', t')
    /\ (s'.(vim_mode) = VimMode.Command <-> exists r, get_mode_display s' = str ":" ++ r).
Proof.
  do 2 eexists. split; [reflexivity|].
  eapply (mode_display_identifies_mode no_unicode_alphanumeric (str "ab")
           [KeyPress Key.Num9 shift_mods; TextInput 119%N]). reflexivity.
Defined.

Lemma command_type_then_backspace_witness :
  let s := mkEditor 0 0 0 0 VimMode.Command (str ":") VimOperation.None [] in
  s.(vim_mode) = VimMode.Command /\ s.(command_buffer) <> [] /\ (32 <= 119)%N
  /\ run no_unicode_alphanumeric s (str "ab") [TextInput 119%N; press Key.Backspace]
     = Some (s, str "ab").
Proof.
  intros s. split; [reflexivity|]. split; [discriminate|]. split; [lia|].
  apply (command_type_then_backspace no_unicode_alphanumeric s (str "ab") 119%N);
    [reflexivity | discriminate | lia].
Defined.

Lemma insert_type_then_backspace_witness :
  let s := editor_at VimMode.Insert 1 0 1 [] in
  s.(vim_mode) = VimMode.Insert /\ s.(cursor_position) = byte_len (str "a")
  /\ (120 < 128)%N /\ ((32 <= 120)%N \/ 120%N = nl \/ 120%N = 9%N)
  /\ exists s1 s2,
    step no_unicode_alphanumeric s (str "a" ++ str "b") (TextInput 120%N)
      = Some (s1, str "a" ++ 120%N :: str "b")
    /\ s1.(cursor_position) = byte_len (str "a") + 1
    /\ step no_unicode_alphanumeric s1 (str "a" ++ 120%N :: str "b") (press Key.Backspace)
       = Some (s2, str "a" ++ str "b")
    /\ s2.(cursor_position) = byte_len (str "a")
    /\ s2.(vim_mode) = VimMode.Insert.
Proof.
  intros s. split; [reflexivity|]. split; [reflexivity|]. split; [lia|].
  split; [left; lia|].
  apply (insert_type_then_backspace no_unicode_alphanumeric s (str "a") (str "b") 120%N);
    [reflexivity | reflexivity | lia | left; lia].
Defined.

Lemma enter_is_newline_input_witness :
  let s := editor_at VimMode.Insert 1 0 1 [] in
  s.(vim_mode) = VimMode.Insert
  /\ step no_unicode_alphanumeric s (str "ab") (KeyPress Key.Enter no_mods)
     = handle_text_input s nl (str "ab").
Proof.
  intros s. split; [reflexivity|].
  apply (enter_is_newline_input no_unicode_alphanumeric s (str "ab") no_mods). reflexivity.
Defined.

Lemma delete_char_under_cursor_witness :
  let s := editor_at VimMode.Normal 1 0 1 (str "r") in
  ((s.(vim_mode) = VimMode.Normal /\ s.(current_operation) = VimOperation.None /\ Key.X = Key.X)
   \/ (s.(vim_mode) = VimMode.Insert /\ Key.X = Key.Delete))
  /\ s.(cursor_position) = byte_len (str "a")
  /\ exists s', step no_unicode_alphanumeric s (str "a" ++ 98%N :: str "c") (press Key.X)
                  = Some (s', str "a" ++ str "c")
                /\ s'.(cursor_position) = byte_len (str "a")
                /\ s'.(vim_mode) = s.(vim_mode)
                /\ s'.(register_buffer) = s.(register_buffer).
Proof.
  intros s.
  assert (H : (s.(vim_mode) = VimMode.Normal /\ s.(current_operation) = VimOperation.None
               /\ Key.X = Key.X) \/ (s.(vim_mode) = VimMode.Insert /\ Key.X = Key.Delete))
    by (left; repeat split).
  split; [exact H|]. split; [reflexivity|].
  apply (delete_char_under_cursor no_unicode_alphanumeric s Key.X (str "a") 98%N (str "c"));
    [exact H | reflexivity].
Defined.

Lemma line_and_column_of_offset_witness :
  let s := editor_at VimMode.Normal 3 0 0 [] in
  line_prefix (str "a" ++ [nl]) /\ ~ In nl (str "b")
  /\ s.(cursor_position) = byte_len ((str "a" ++ [nl]) ++ str "b")
  /\ update_cursor_line_column s ((str "a" ++ [nl]) ++ str "b" ++ str "c")
     = Some (set_line_column s (count_occ N.eq_dec (str "a" ++ [nl]) nl) (byte_len (str "b"))).
Proof.
  intros s.
  assert (Hp : line_prefix (str "a" ++ [nl])) by (right; exists (str "a"); reflexivity).
  assert (Hn : ~ In nl (str "b")) by (apply (count_occ_not_In N.eq_dec); reflexivity).
  split; [exact Hp|]. split; [exact Hn|]. split; [reflexivity|].
  apply (line_and_column_of_offset s (str "a" ++ [nl]) (str "b") (str "c")); 
    [exact Hp | exact Hn | reflexivity].
Defined.

Lemma dd_then_P_restores_line_witness :
  let s := editor_at VimMode.Normal 1 0 1 [] in
  s.(vim_mode) = VimMode.Normal /\ s.(current_operation) = VimOperation.None
  /\ line_prefix [] /\ ~ In nl (str "a" ++ str "b")
  /\ s.(cursor_position) = byte_len ([] ++ str "a") /\ str "c" <> []
  /\ exists s1 s2,
    run no_unicode_alphanumeric s ([] ++ str "a" ++ str "b" ++ nl :: str "c")
      [press Key.D; press Key.D] = Some (s1, [] ++ str "c")
    /\ step no_unicode_alphanumeric s1 ([] ++ str "c") (KeyPress Key.P shift_mods)
       = Some (s2, [] ++ str "a" ++ str "b" ++ nl :: str "c")
    /\ s2.(cursor_position) = byte_len ([] ++ str "a" ++ str "b") + 1.
Proof.
  intros s.
  assert (Hp : line_prefix []) by (left; reflexivity).
  assert (Hn : ~ In nl (str "a" ++ str "b")) by (apply (count_occ_not_In N.eq_dec); reflexivity).
  split; [reflexivity|]. split; [reflexivity|]. split; [exact Hp|]. split; [exact Hn|].
  split; [reflexivity|]. split; [discriminate|].
  apply (dd_then_P_restores_line no_unicode_alphanumeric s [] (str "a") (str "b") (str "c"));
    [reflexivity | reflexivity | exact Hp | exact Hn | reflexivity | discriminate].
Defined.

Lemma dd_then_p_swaps_lines_witness :
  let s := editor_at VimMode.Normal 1 0 1 [] in
  s.(vim_mode) = VimMode.Normal /\ s.(current_operation) = VimOperation.None
  /\ line_prefix [] /\ ~ In nl (str "a" ++ str "b") /\ ~ In nl (str "c")
  /\ s.(cursor_position) = byte_len ([] ++ str "a")
  /\ exists s2,
    run no_unicode_alphanumeric s ([] ++ str "a" ++ str "b" ++ nl :: str "c" ++ nl :: str "d")
      [press Key.D; press Key.D; press Key.P]
      = Some (s2, [] ++ str "c" ++ nl :: str "a" ++ str "b" ++ nl :: str "d").
Proof.
  intros s.
  assert (Hp : line_prefix []) by (left; reflexivity).
  assert (Hn : ~ In nl (str "a" ++ str "b")) by (apply (count_occ_not_In N.eq_dec); reflexivity).
  assert (Hm : ~ In nl (str "c")) by (apply (count_occ_not_In N.eq_dec); reflexivity).
  split; [reflexivity|]. split; [reflexivity|]. split; [exact Hp|]. split; [exact Hn|].
  split; [exact Hm|]. split; [reflexivity|].
  apply (dd_then_p_swaps_lines no_unicode_alphanumeric s [] (str "a") (str "b") (str "c") (str "d"));
    [reflexivity | reflexivity | exact Hp | exact Hn | exact Hm | reflexivity].
Defined.

Lemma yy_then_P_duplicates_above_witness :
  let s := editor_at VimMode.Normal 1 0 1 [] in
  s.(vim_mode) = VimMode.Normal /\ s.(current_operation) = VimOperation.None
  /\ line_prefix [] /\ ~ In nl (str "a" ++ str "b")
  /\ s.(cursor_position) = byte_len ([] ++ str "a")
  /\ exists s2,
    run no_unicode_alphanumeric s ([] ++ str "a" ++ str "b" ++ nl :: str "c")
      [press Key.Y; press Key.Y; KeyPress Key.P shift_mods]
      = Some (s2, [] ++ str "a" ++ str "b" ++ nl :: str "a" ++ str "b" ++ nl :: str "c")
    /\ s2.(cursor_position) = byte_len ([] ++ str "a" ++ str "b") + 1
    /\ s2.(register_buffer) = str "a" ++ str "b" ++ [nl].
Proof.
  intros s.
  assert (Hp : line_prefix []) by (left; reflexivity).
  assert (Hn : ~ In nl (str "a" ++ str "b")) by (apply (count_occ_not_In N.eq_dec); reflexivity).
  split; [reflexivity|]. split; [reflexivity|]. split; [exact Hp|]. split; [exact Hn|].
  split; [reflexivity|].
  apply (yy_then_P_duplicates_above no_unicode_alphanumeric s [] (str "a") (str "b") (str "c"));
    [reflexivity | reflexivity | exact Hp | exact Hn | reflexivity].
Defined.

Lemma open_line_below_above_witness :
  let s := editor_at VimMode.Normal 1 0 1 [] in
  s.(vim_mode) = VimMode.Normal /\ s.(current_operation) = VimOperation.None
  /\ line_prefix [] /\ ~ In nl (str "a" ++ str "b") /\ line_suffix (nl :: str "c")
  /\ s.(cursor_position) = byte_len ([] ++ str "a")
  /\ (exists s', step no_unicode_alphanumeric s ([] ++ str "a" ++ str "b" ++ nl :: str "c") (press Key.O)
                   = Some (s', [] ++ str "a" ++ str "b" ++ nl :: nl :: str "c")
                 /\ s'.(cursor_position) = byte_len ([] ++ str "a" ++ str "b") + 1
                 /\ s'.(vim_mode) = VimMode.Insert)
  /\ (exists s', step no_unicode_alphanumeric s ([] ++ str "a" ++ str "b" ++ nl :: str "c")
                   (KeyPress Key.O shift_mods)
                   = Some (s', [] ++ nl :: str "a" ++ str "b" ++ nl :: str "c")
                 /\ s'.(cursor_position) = byte_len []
                 /\ s'.(vim_mode) = VimMode.Insert).
Proof.
  intros s.
  assert (Hp : line_prefix []) by (left; reflexivity).
  assert (Hn : ~ In nl (str "a" ++ str "b")) by (apply (count_occ_not_In N.eq_dec); reflexivity).
  assert (Hr : line_suffix (nl :: str "c")) by (right; exists (str "c"); reflexivity).
  split; [reflexivity|]. split; [reflexivity|]. split; [exact Hp|]. split; [exact Hn|].
  split; [exact Hr|]. split; [reflexivity|].
  apply (open_line_below_above no_unicode_alphanumeric s [] (str "a") (str "b") (nl :: str "c"));
    [reflexivity | reflexivity | exact Hp | exact Hn | exact Hr | reflexivity].
Defined.

Lemma cc_clears_line_into_register_witness :
  let s := editor_at VimMode.Normal 1 0 1 [] in
  s.(vim_mode) = VimMode.Normal /\ s.(current_operation) = VimOperation.None
  /\ line_prefix [] /\ ~ In nl (str "a" ++ str "b") /\ line_suffix (nl :: str "c")
  /\ s.(cursor_position) = byte_len ([] ++ str "a")
  /\ exists s',
    run no_unicode_alphanumeric s ([] ++ str "a" ++ str "b" ++ nl :: str "c")
      [press Key.C; press Key.C] = Some (s', [] ++ nl :: str "c")
    /\ s'.(register_buffer) = str "a" ++ str "b"
    /\ s'.(cursor_position) = byte_len []
    /\ s'.(vim_mode) = VimMode.Insert
    /\ s'.(current_operation) = VimOperation.None.
Proof.
  intros s.
  assert (Hp : line_prefix []) by (left; reflexivity).
  assert (Hn : ~ In nl (str "a" ++ str "b")) by (apply (count_occ_not_In N.eq_dec); reflexivity).
  assert (Hr : line_suffix (nl :: str "c")) by (right; exists (str "c"); reflexivity).
  split; [reflexivity|]. split; [reflexivity|]. split; [exact Hp|]. split; [exact Hn|].
  split; [exact Hr|]. split; [reflexivity|].
  apply (cc_clears_line_into_register no_unicode_alphanumeric s [] (str "a") (str "b") (nl :: str "c"));
    [reflexivity | reflexivity | exact Hp | exact Hn | exact Hr | reflexivity].
Defined.

Lemma line_start_end_motions_witness :
  let s := editor_at VimMode.Normal 3 1 1 [] in
  s.(vim_mode) = VimMode.Normal /\ s.(current_operation) = VimOperation.None
  /\ line_prefix (str "x" ++ [nl]) /\ ~ In nl (str "a" ++ str "b") /\ line_suffix []
  /\ s.(cursor_position) = byte_len ((str "x" ++ [nl]) ++ str "a")
  /\ (exists s', step no_unicode_alphanumeric s ((str "x" ++ [nl]) ++ str "a" ++ str "b" ++ [])
                   (press Key.Num0)
                   = Some (s', (str "x" ++ [nl]) ++ str "a" ++ str "b" ++ [])
                 /\ s'.(cursor_position) = byte_len (str "x" ++ [nl])
                 /\ s'.(cursor_column) = 0 /\ s'.(desired_column) = 0)
  /\ (exists s', step no_unicode_alphanumeric s ((str "x" ++ [nl]) ++ str "a" ++ str "b" ++ [])
                   (press Key.Num4)
                   = Some (s', (str "x" ++ [nl]) ++ str "a" ++ str "b" ++ [])
                 /\ s'.(cursor_position) = byte_len ((str "x" ++ [nl]) ++ str "a" ++ str "b")
                 /\ s'.(cursor_column) = byte_len (str "a" ++ str "b")
                 /\ s'.(desired_column) = byte_len (str "a" ++ str "b")).
Proof.
  intros s.
  assert (Hp : line_prefix (str "x" ++ [nl])) by (right; exists (str "x"); reflexivity).
  assert (Hn : ~ In nl (str "a" ++ str "b")) by (apply (count_occ_not_In N.eq_dec); reflexivity).
  assert (Hr : line_suffix []) by (left; reflexivity).
  split; [reflexivity|]. split; [reflexivity|]. split; [exact Hp|]. split; [exact Hn|].
  split; [exact Hr|]. split; [reflexivity|].
  apply (line_start_end_motions no_unicode_alphanumeric s (str "x" ++ [nl]) (str "a") (str "b") []);
    [reflexivity | reflexivity | exact Hp | exact Hn | exact Hr | reflexivity].
Defined.

Lemma escape_cancels_pending_operator_witness :
  let s := mkEditor 1 0 1 1 VimMode.Normal [] VimOperation.Delete (str "r") in
  s.(vim_mode) = VimMode.Normal /\ s.(current_operation) <> VimOperation.None
  /\ exists s', handle_key_press no_unicode_alphanumeric s Key.Escape (str "ab") no_mods
                  = Some (s', str "ab", (false, None))
                /\ s'.(current_operation) = VimOperation.None
                /\ s'.(cursor_position) = s.(cursor_position)
                /\ s'.(register_buffer) = s.(register_buffer)
                /\ s'.(vim_mode) = VimMode.Normal.
Proof.
  intros s. split; [reflexivity|]. split; [discriminate|].
  apply (escape_cancels_pending_operator no_unicode_alphanumeric s (str "ab") no_mods);
    [reflexivity | discriminate].
Defined.

Lemma command_mode_keeps_document_witness :
  let s := mkEditor 0 0 0 0 VimMode.Command (str ":w") VimOperation.None [] in
  s.(vim_mode) = VimMode.Command
  /\ exists s', step no_unicode_alphanumeric s (str "ab") (press Key.Enter) = Some (s', str "ab").
Proof.
  intros s. split; [reflexivity|].
  apply (command_mode_keeps_document no_unicode_alphanumeric s (str "ab") (press Key.Enter)).
  reflexivity.
Defined.

Lemma motions_keep_document_witness :
  let s := editor_at VimMode.Normal 0 0 0 (str "r") in
  exists s' t',
    step no_unicode_alphanumeric s (str "ab" ++ nl :: str "c") (press Key.J) = Some (s', t')
    /\ s.(vim_mode) = VimMode.Normal /\ s.(current_operation) = VimOperation.None
    /\ In Key.J [Key.H; Key.L; Key.J; Key.K; Key.W; Key.B; Key.Num0; Key.Num4;
                 Key.ArrowLeft; Key.ArrowRight; Key.ArrowUp; Key.ArrowDown]
    /\ t' = str "ab" ++ nl :: str "c" /\ s'.(register_buffer) = s.(register_buffer)
    /\ s'.(vim_mode) = VimMode.Normal /\ s'.(current_operation) = VimOperation.None.
Proof.
  intros s. do 2 eexists. split; [reflexivity|].
  split; [reflexivity|]. split; [reflexivity|]. split; [simpl; auto 20|].
  apply (motions_keep_document no_unicode_alphanumeric s _ Key.J no_mods);
    [reflexivity | reflexivity | simpl; auto 20 | reflexivity].
Defined.

Lemma yank_keeps_document_and_cursor_witness :
  let s := mkEditor 1 0 1 1 VimMode.Normal [] VimOperation.Yank [] in
  exists s' t',
    step no_unicode_alphanumeric s (str "ab" ++ nl :: str "c") (press Key.Y) = Some (s', t')
    /\ s.(vim_mode) = VimMode.Normal /\ s.(current_operation) = VimOperation.Yank
    /\ (Key.Y = Key.W \/ Key.Y = Key.Y)
    /\ t' = str "ab" ++ nl :: str "c" /\ s'.(cursor_position) = s.(cursor_position)
    /\ s'.(vim_mode) = VimMode.Normal /\ s'.(current_operation) = VimOperation.None.
Proof.
  intros s. do 2 eexists. split; [reflexivity|].
  split; [reflexivity|]. split; [reflexivity|]. split; [right; reflexivity|].
  apply (yank_keeps_document_and_cursor no_unicode_alphanumeric s _ Key.Y no_mods);
    [reflexivity | reflexivity | right; reflexivity | reflexivity].
Defined.

Lemma down_lands_at_sticky_column_witness :
  let s := mkEditor 2 0 2 3 VimMode.Normal [] VimOperation.None [] in
  s.(vim_mode) = VimMode.Normal /\ s.(current_operation) = VimOperation.None
  /\ line_prefix [] /\ ~ In nl (str "ab" ++ str "c") /\ ~ In nl (str "defgh") /\ line_suffix []
  /\ str "defgh" ++ [] <> [] /\ ascii_text (str "defgh")
  /\ s.(cursor_position) = byte_len ([] ++ str "ab") /\ s.(cursor_column) = byte_len (str "ab")
  /\ exists s',
    step no_unicode_alphanumeric s ([] ++ str "ab" ++ str "c" ++ nl :: str "defgh" ++ [])
      (press Key.J)
      = Some (s', [] ++ str "ab" ++ str "c" ++ nl :: str "defgh" ++ [])
    /\ s'.(cursor_position)
       = byte_len ([] ++ str "ab" ++ str "c") + 1
         + Nat.min (Nat.max s.(desired_column) (byte_len (str "ab"))) (List.length (str "defgh"))
    /\ s'.(cursor_column)
       = Nat.min (Nat.max s.(desired_column) (byte_len (str "ab"))) (List.length (str "defgh"))
    /\ s'.(desired_column) = s.(desired_column).
Proof.
  intros s.
  assert (Hp : line_prefix []) by (left; reflexivity).
  assert (Hn : ~ In nl (str "ab" ++ str "c")) by (apply (count_occ_not_In N.eq_dec); reflexivity).
  assert (Hn1 : ~ In nl (str "defgh")) by (apply (count_occ_not_In N.eq_dec); reflexivity).
  assert (Hr : line_suffix []) by (left; reflexivity).
  assert (Ha : ascii_text (str "defgh")) by (repeat constructor).
  split; [reflexivity|]. split; [reflexivity|]. split; [exact Hp|]. split; [exact Hn|].
  split; [exact Hn1|]. split; [exact Hr|]. split; [discriminate|]. split; [exact Ha|].
  split; [reflexivity|]. split; [reflexivity|].
  apply (down_lands_at_sticky_column no_unicode_alphanumeric s [] (str "ab") (str "c")
           (str "defgh") []);
    [reflexivity | reflexivity | exact Hp | exact Hn | exact Hn1 | exact Hr | discriminate
    | exact Ha | reflexivity | reflexivity].
Defined.

Lemma up_lands_at_sticky_column_witness :
  let s := mkEditor 4 1 1 3 VimMode.Normal [] VimOperation.None [] in
  s.(vim_mode) = VimMode.Normal /\ s.(current_operation) = VimOperation.None
  /\ line_prefix [] /\ ~ In nl (str "ab") /\ ~ In nl (str "c") /\ ascii_text (str "ab")
  /\ s.(cursor_position) = byte_len ([] ++ str "ab" ++ nl :: str "c")
  /\ s.(cursor_column) = byte_len (str "c")
  /\ exists s',
    step no_unicode_alphanumeric s ([] ++ str "ab" ++ nl :: str "c" ++ str "d") (press Key.K)
      = Some (s', [] ++ str "ab" ++ nl :: str "c" ++ str "d")
    /\ s'.(cursor_position)
       = byte_len [] + Nat.min (Nat.max s.(desired_column) (byte_len (str "c"))) (List.length (str "ab"))
    /\ s'.(cursor_column)
       = Nat.min (Nat.max s.(desired_column) (byte_len (str "c"))) (List.length (str "ab"))
    /\ s'.(desired_column) = s.(desired_column).
Proof.
  intros s.
  assert (Hp : line_prefix []) by (left; reflexivity).
  assert (Hp1 : ~ In nl (str "ab")) by (apply (count_occ_not_In N.eq_dec); reflexivity).
  assert (Hl1 : ~ In nl (str "c")) by (apply (count_occ_not_In N.eq_dec); reflexivity).
  assert (Ha : ascii_text (str "ab")) by (repeat constructor).
  split; [reflexivity|]. split; [reflexivity|]. split; [exact Hp|]. split; [exact Hp1|].
  split; [exact Hl1|]. split; [exact Ha|]. split; [reflexivity|]. split; [reflexivity|].
  apply (up_lands_at_sticky_column no_unicode_alphanumeric s [] (str "ab") (str "c") (str "d"));
    [reflexivity | reflexivity | exact Hp | exact Hp1 | exact Hl1 | exact Ha
    | reflexivity | reflexivity].
Defined.

Lemma insert_at_line_start_end_witness :
  let s := editor_at VimMode.Normal 3 1 1 [] in
  s.(vim_mode) = VimMode.Normal /\ s.(current_operation) = VimOperation.None
  /\ line_prefix (str "x" ++ [nl]) /\ ~ In nl (str "a" ++ str "b") /\ line_suffix [nl]
  /\ s.(cursor_position) = byte_len ((str "x" ++ [nl]) ++ str "a")
  /\ (exists s', step no_unicode_alphanumeric s ((str "x" ++ [nl]) ++ str "a" ++ str "b" ++ [nl])
                   (KeyPress Key.I shift_mods)
                   = Some (s', (str "x" ++ [nl]) ++ str "a" ++ str "b" ++ [nl])
                 /\ s'.(cursor_position) = byte_len (str "x" ++ [nl])
                 /\ s'.(cursor_line) = count_occ N.eq_dec (str "x" ++ [nl]) nl
                 /\ s'.(cursor_column) = 0 /\ s'.(vim_mode) = VimMode.Insert)
  /\ (exists s', step no_unicode_alphanumeric s ((str "x" ++ [nl]) ++ str "a" ++ str "b" ++ [nl])
                   (KeyPress Key.A shift_mods)
                   = Some (s', (str "x" ++ [nl]) ++ str "a" ++ str "b" ++ [nl])
                 /\ s'.(cursor_position) = byte_len ((str "x" ++ [nl]) ++ str "a" ++ str "b")
                 /\ s'.(cursor_line) = count_occ N.eq_dec (str "x" ++ [nl]) nl
                 /\ s'.(cursor_column) = byte_len (str "a" ++ str "b")
                 /\ s'.(vim_mode) = VimMode.Insert).
Proof.
  intros s.
  assert (Hp : line_prefix (str "x" ++ [nl])) by (right; exists (str "x"); reflexivity).
  assert (Hn : ~ In nl (str "a" ++ str "b")) by (apply (count_occ_not_In N.eq_dec); reflexivity).
  assert (Hr : line_suffix [nl]) by (right; exists []; reflexivity).
  split; [reflexivity|]. split; [reflexivity|]. split; [exact Hp|]. split; [exact Hn|].
  split; [exact Hr|]. split; [reflexivity|].
  apply (insert_at_line_start_end no_unicode_alphanumeric s (str "x" ++ [nl]) (str "a") (str "b") [nl]);
    [reflexivity | reflexivity | exact Hp | exact Hn | exact Hr | reflexivity].
Defined.

Lemma home_end_in_insert_mode_witness :
  let s := mkEditor 3 1 1 5 VimMode.Insert [] VimOperation.None [] in
  s.(vim_mode) = VimMode.Insert
  /\ line_prefix (str "x" ++ [nl]) /\ ~ In nl (str "a" ++ str "b") /\ line_suffix []
  /\ s.(cursor_position) = byte_len ((str "x" ++ [nl]) ++ str "a")
  /\ (exists s', step no_unicode_alphanumeric s ((str "x" ++ [nl]) ++ str "a" ++ str "b" ++ [])
                   (KeyPress Key.Home no_mods)
                   = Some (s', (str "x" ++ [nl]) ++ str "a" ++ str "b" ++ [])
                 /\ s'.(cursor_position) = byte_len (str "x" ++ [nl])
                 /\ s'.(cursor_line) = count_occ N.eq_dec (str "x" ++ [nl]) nl
                 /\ s'.(cursor_column) = 0
                 /\ s'.(desired_column) = s.(desired_column) /\ s'.(vim_mode) = VimMode.Insert)
  /\ (exists s', step no_unicode_alphanumeric s ((str "x" ++ [nl]) ++ str "a" ++ str "b" ++ [])
                   (KeyPress Key.End_ no_mods)
                   = Some (s', (str "x" ++ [nl]) ++ str "a" ++ str "b" ++ [])
                 /\ s'.(cursor_position) = byte_len ((str "x" ++ [nl]) ++ str "a" ++ str "b")
                 /\ s'.(cursor_line) = count_occ N.eq_dec (str "x" ++ [nl]) nl
                 /\ s'.(cursor_column) = byte_len (str "a" ++ str "b")
                 /\ s'.(desired_column) = s.(desired_column) /\ s'.(vim_mode) = VimMode.Insert).
Proof.
  intros s.
  assert (Hp : line_prefix (str "x" ++ [nl])) by (right; exists (str "x"); reflexivity).
  assert (Hn : ~ In nl (str "a" ++ str "b")) by (apply (count_occ_not_In N.eq_dec); reflexivity).
  assert (Hr : line_suffix []) by (left; reflexivity).
  split; [reflexivity|]. split; [exact Hp|]. split; [exact Hn|].
  split; [exact Hr|]. split; [reflexivity|].
  apply (home_end_in_insert_mode no_unicode_alphanumeric s (str "x" ++ [nl]) (str "a") (str "b") []
           no_mods);
    [reflexivity | exact Hp | exact Hn | exact Hr | reflexivity].
Defined.

Lemma w_moves_to_next_word_witness :
  let s := editor_at VimMode.Normal 0 0 0 [] in
  s.(vim_mode) = VimMode.Normal /\ s.(current_operation) = VimOperation.None
  /\ ascii_text (str "ab" ++ str " ") /\ Forall (fun c => is_whitespace c = false) (str "ab")
  /\ Forall (fun c => is_whitespace c = true) (str " ") /\ str " " <> []
  /\ (str "cd" = [] \/ exists c r', str "cd" = c :: r' /\ (c < 128)%N /\ is_whitespace c = false)
  /\ s.(cursor_position) = byte_len []
  /\ exists s', step no_unicode_alphanumeric s ([] ++ str "ab" ++ str " " ++ str "cd") (press Key.W)
                  = Some (s', [] ++ str "ab" ++ str " " ++ str "cd")
                /\ s'.(cursor_position) = byte_len ([] ++ str "ab" ++ str " ")
                /\ s'.(desired_column) = s'.(cursor_column).
Proof.
  intros s.
  assert (Ha : ascii_text (str "ab" ++ str " ")) by (repeat constructor).
  assert (Hw : Forall (fun c => is_whitespace c = false) (str "ab")) by (repeat constructor).
  assert (Hws : Forall (fun c => is_whitespace c = true) (str " ")) by (repeat constructor).
  assert (Hr : str "cd" = [] \/ exists c r', str "cd" = c :: r' /\ (c < 128)%N
                                             /\ is_whitespace c = false)
    by (right; exists 99%N, (str "d"); split; [reflexivity | split; [lia | reflexivity]]).
  split; [reflexivity|]. split; [reflexivity|]. split; [exact Ha|]. split; [exact Hw|].
  split; [exact Hws|]. split; [discriminate|]. split; [exact Hr|]. split; [reflexivity|].
  apply (w_moves_to_next_word no_unicode_alphanumeric s [] (str "ab") (str " ") (str "cd"));
    [reflexivity | reflexivity | exact Ha | exact Hw | exact Hws | discriminate | exact Hr
    | reflexivity].
Defined.

Lemma word_operators_take_word_and_space_witness :
  let s := editor_at VimMode.Normal 0 0 0 [] in
  s.(vim_mode) = VimMode.Normal /\ s.(register_buffer) <> str "i"
  /\ ascii_text (str "ab" ++ str " ") /\ Forall (fun c => is_whitespace c = false) (str "ab")
  /\ Forall (fun c => is_whitespace c = true) (str " ") /\ str " " <> []
  /\ (str "cd" = [] \/ exists c r', str "cd" = c :: r' /\ (c < 128)%N /\ is_whitespace c = false)
  /\ s.(cursor_position) = byte_len []
  /\ (exists s', step no_unicode_alphanumeric (set_current_operation s VimOperation.Delete)
                   ([] ++ str "ab" ++ str " " ++ str "cd") (press Key.W)
                   = Some (s', [] ++ str "cd")
                 /\ s'.(register_buffer) = str "ab" ++ str " "
                 /\ s'.(cursor_position) = byte_len []
                 /\ s'.(vim_mode) = VimMode.Normal
                 /\ s'.(current_operation) = VimOperation.None)
  /\ (exists s', step no_unicode_alphanumeric (set_current_operation s VimOperation.Change)
                   ([] ++ str "ab" ++ str " " ++ str "cd") (press Key.W)
                   = Some (s', [] ++ str "cd")
                 /\ s'.(register_buffer) = str "ab" ++ str " "
                 /\ s'.(cursor_position) = byte_len []
                 /\ s'.(vim_mode) = VimMode.Insert
                 /\ s'.(current_operation) = VimOperation.None)
  /\ (exists s', step no_unicode_alphanumeric (set_current_operation s VimOperation.Yank)
                   ([] ++ str "ab" ++ str " " ++ str "cd") (press Key.W)
                   = Some (s', [] ++ str "ab" ++ str " " ++ str "cd")
                 /\ s'.(register_buffer) = str "ab" ++ str " "
                 /\ s'.(cursor_position) = byte_len []
                 /\ s'.(vim_mode) = VimMode.Normal
                 /\ s'.(current_operation) = VimOperation.None).
Proof.
  intros s.
  assert (Ha : ascii_text (str "ab" ++ str " ")) by (repeat constructor).
  assert (Hw : Forall (fun c => is_whitespace c = false) (str "ab")) by (repeat constructor).
  assert (Hws : Forall (fun c => is_whitespace c = true) (str " ")) by (repeat constructor).
  assert (Hr : str "cd" = [] \/ exists c r', str "cd" = c :: r' /\ (c < 128)%N
                                             /\ is_whitespace c = false)
    by (right; exists 99%N, (str "d"); split; [reflexivity | split; [lia | reflexivity]]).
  split; [reflexivity|]. split; [discriminate|]. split; [exact Ha|]. split; [exact Hw|].
  split; [exact Hws|]. split; [discriminate|]. split; [exact Hr|]. split; [reflexivity|].
  apply (word_operators_take_word_and_space no_unicode_alphanumeric s [] (str "ab") (str " ")
           (str "cd"));
    [reflexivity | discriminate | exact Ha | exact Hw | exact Hws | discriminate | exact Hr
    | reflexivity].
Defined.

Lemma b_moves_to_word_start_witness :
  let s := editor_at VimMode.Normal 5 0 5 [] in
  s.(vim_mode) = VimMode.Normal /\ s.(current_operation) = VimOperation.None
  /\ ascii_text (str "ab" ++ str " ") /\ Forall (fun c => is_whitespace c = false) (str "ab")
  /\ Forall (fun c => is_whitespace c = true) (str " ") /\ str "ab" <> []
  /\ (str "x " = [] \/ exists p' c, str "x " = p' ++ [c] /\ (c < 128)%N /\ is_whitespace c = true)
  /\ s.(cursor_position) = byte_len (str "x " ++ str "ab" ++ str " ")
  /\ exists s', step no_unicode_alphanumeric s (str "x " ++ str "ab" ++ str " " ++ str "cd")
                  (press Key.B)
                  = Some (s', str "x " ++ str "ab" ++ str " " ++ str "cd")
                /\ s'.(cursor_position) = byte_len (str "x ")
                /\ s'.(desired_column) = s'.(cursor_column).
Proof.
  intros s.
  assert (Ha : ascii_text (str "ab" ++ str " ")) by (repeat constructor).
  assert (Hw : Forall (fun c => is_whitespace c = false) (str "ab")) by (repeat constructor).
  assert (Hws : Forall (fun c => is_whitespace c = true) (str " ")) by (repeat constructor).
  assert (Hp : str "x " = [] \/ exists p' c, str "x " = p' ++ [c] /\ (c < 128)%N
                                             /\ is_whitespace c = true)
    by (right; exists (str "x"), 32%N; split; [reflexivity | split; [lia | reflexivity]]).
  split; [reflexivity|]. split; [reflexivity|]. split; [exact Ha|]. split; [exact Hw|].
  split; [exact Hws|]. split; [discriminate|]. split; [exact Hp|]. split; [reflexivity|].
  apply (b_moves_to_word_start no_unicode_alphanumeric s (str "x ") (str "ab") (str " ")
           (str "cd"));
    [reflexivity | reflexivity | exact Ha | exact Hw | exact Hws | discriminate | exact Hp
    | reflexivity].
Defined.
